(** * wgbs_tools: the region-parallel annotate-and-merge engine

    A shallow embedding of [src/python/add_cpg_counts.py]: the region
    resolver ([BamMethylData.set_regions]), the per-region pipeline
    ([proc_chr]), the coordinator with its merge, index and clean-up
    phase ([BamMethylData.start_threads]) and the driver loop ([main]).

    Python values are modelled as follows.
    - [str] is [string]; [int] is [Z], printed in decimal by [pretty].
    - [None]-or-value arguments are [option].
    - The file system is the finite set of existing paths.
    - Everything the module does to the outside world (printing, running
      a shell command, spawning a process, removing a file, using the
      worker pool) is recorded, in program order, in a trace of events.
    - A raised exception is the [Raise] outcome of the state-and-error
      monad [M]; nothing in the module catches exceptions.
    - [Pool(n)] raises [ValueError] for [n < 1], and [shlex.split], the
      lexer of the standard library, raises [ValueError] on a quotation
      that is not closed; the programs that the commands name are taken to
      be installed, so that starting a process does not fail otherwise.
    - Time stamps prefixed to progress messages are left out of the
      printed text. *)

From Stdlib Require Import Ascii.
From stdpp Require Import base list sorting strings pretty gmap.

(** ** Strings, as the Python string operations the module uses *)

Module Str.

(** [sep.join(l)] *)
Fixpoint join (sep : string) (l : list string) : string :=
  match l with
  | [] => ""
  | [x] => x
  | x :: l' => x +:+ sep +:+ join sep l'
  end.

(** [s[:-n]] for a positive [n]: all but the last [n] characters. *)
Definition drop_last (n : nat) (s : string) : string :=
  String.substring 0 (String.length s - n) s.

(** [s.split(sep)] for a one-character separator. *)
Fixpoint split_go (sep : ascii) (cur : string) (s : string) : list string :=
  match s with
  | "" => [String.rev cur]
  | String a s' =>
      if Ascii.eqb a sep then String.rev cur :: split_go sep "" s'
      else split_go sep (String a cur) s'
  end.
Definition split (sep : ascii) (s : string) : list string := split_go sep "" s.

(** [s.replace(a, b)] for one-character [a] and [b]. *)
Fixpoint replace (a b : ascii) (s : string) : string :=
  match s with
  | "" => ""
  | String c s' => String (if Ascii.eqb c a then b else c) (replace a b s')
  end.

(** [True] when [c] occurs in [s]. *)
Fixpoint mem (c : ascii) (s : string) : bool :=
  match s with
  | "" => false
  | String a s' => Ascii.eqb a c || mem c s'
  end.

(** [s.endswith(c)] for one character. *)
Fixpoint ends_with (c : ascii) (s : string) : bool :=
  match s with
  | "" => false
  | String a "" => Ascii.eqb a c
  | String _ s' => ends_with c s'
  end.

(** The text after the last ['/'] ([posixpath.basename]). *)
Fixpoint basename_go (cur : string) (s : string) : string :=
  match s with
  | "" => String.rev cur
  | String a s' =>
      if Ascii.eqb a "/"%char then basename_go "" s' else basename_go (String a cur) s'
  end.
Definition basename (p : string) : string := basename_go "" p.

(** Removes trailing ['/'] characters ([s.rstrip('/')]) of a reversed string. *)
Fixpoint lstrip_slash (s : string) : string :=
  match s with
  | String a s' => if Ascii.eqb a "/"%char then lstrip_slash s' else s
  | "" => ""
  end.

(** Drops the characters up to, and not including, the first ['/']. *)
Fixpoint from_slash (s : string) : string :=
  match s with
  | String a s' => if Ascii.eqb a "/"%char then s else from_slash s'
  | "" => ""
  end.

(** [posixpath.dirname]: the head up to the last ['/'], without its
    trailing slashes unless it consists of slashes only. *)
Definition dirname (p : string) : string :=
  let head := from_slash (String.rev p) in
  match lstrip_slash head with
  | "" => String.rev head
  | h => String.rev h
  end.

(** [posixpath.join(a, b)] for a relative [b]. *)
Definition path_join (a b : string) : string :=
  if String.eqb a "" then b
  else if ends_with "/"%char a then a +:+ b
  else a +:+ "/" +:+ b.

(** [str(n)] *)
Definition of_Z (n : Z) : string := pretty n.

End Str.

(** ** Outcomes, the world and the monad *)

Inductive exn :=
| IllegalArgumentError (msg : string)
| FileNotFoundError (path : string)
| ValueError (msg : string)
| OtherError (msg : string).

Inductive result (A : Type) :=
| Ok (a : A)
| Raise (e : exn).
Arguments Ok {A} a.
Arguments Raise {A} e.

(** What the module does to the outside world, in program order. *)
Inductive event :=
| Print (msg : string)                       (* print(...) *)
| Eprint (msg : string)                      (* eprint(...) *)
| SubprocessWrap (cmd : string) (debug : bool) (* bam2pat.subprocess_wrap(cmd, debug) *)
| Popen (shell : bool) (cmd : string)        (* subprocess.Popen: cmd itself with shell=True, shlex.split(cmd) otherwise *)
| OsRemove (path : string)                   (* os.remove(path) *)
| PoolOpen (threads : Z)                     (* with Pool(threads) as p *)
| ApplyAsync (handle : nat) (region : string) (* p.apply_async(proc_chr, params) *)
| PoolJoin.                                  (* p.close(); p.join() *)

Record World := mkWorld {
  files : gset string;
  trace : list event
}.

Definition M (A : Type) : Type := World → result A * World.

Definition ret {A} (a : A) : M A := λ w, (Ok a, w).
Definition raise {A} (e : exn) : M A := λ w, (Raise e, w).
Definition bind {A B} (m : M A) (k : A → M B) : M B :=
  λ w, match m w with
       | (Ok a, w') => k a w'
       | (Raise e, w') => (Raise e, w')
       end.

Declare Scope m_scope.
Delimit Scope m_scope with M.
Notation "x <- c ;; k" := (bind c (λ x, k))
  (at level 100, c at next level, right associativity) : m_scope.
Notation "c ;;; k" := (bind c (λ _, k))
  (at level 100, right associativity) : m_scope.
Open Scope m_scope.

Definition emit (e : event) : M unit :=
  λ w, (Ok (), mkWorld (files w) (trace w ++ [e])).

(** [for x in l: body x] *)
Fixpoint for_each {A} (body : A → M unit) (l : list A) : M unit :=
  match l with
  | [] => ret ()
  | x :: l' => body x ;;; for_each body l'
  end.

(** [os.remove(path)]: raises when the path does not exist. *)
Definition os_remove (path : string) : M unit :=
  emit (OsRemove path) ;;;
  λ w, if decide (path ∈ files w)
       then (Ok (), mkWorld (files w ∖ {[path]}) (trace w))
       else (Raise (FileNotFoundError path), w).

(** ** [shlex.split]

    [shlex.split(s)] of the standard library, as the module calls it:
    POSIX mode, no comments, split at white space only.  The lexer reads
    one character at a time in one of four states; it raises at the end
    of the text inside a quotation or after a backslash. *)
Module Shlex.

Definition is_whitespace (c : ascii) : bool :=
Ascii.eqb c " " || Ascii.eqb c (ascii_of_nat 9)
|| Ascii.eqb c (ascii_of_nat 13) || Ascii.eqb c (ascii_of_nat 10).

Definition double_quote : ascii := ascii_of_nat 34.

Definition is_quote (c : ascii) : bool := Ascii.eqb c "'" || Ascii.eqb c double_quote.

Definition is_escape (c : ascii) : bool := Ascii.eqb c (ascii_of_nat 92).

(** [self.state]: [' '], ['a'], a quote character, or the escape
  character together with [escapedstate] ([None] for ['a']). *)
Inductive state :=
| Space
| Word
| Quote (q : ascii)
| Escape (escapedstate : option ascii).

Definition snoc (token : string) (c : ascii) : string := token +:+ String c "".

(** [self.token or (self.posix and quoted)] *)
Definition to_emit (token : string) (quoted : bool) : bool :=
negb (String.eqb token "") || quoted.

Fixpoint go (st : state) (token : string) (quoted : bool) (acc : list string)
  (s : string) : result (list string) :=
match s with
| "" =>
    match st with
    | Space => Ok acc
    | Word => Ok (if to_emit token quoted then acc ++ [token] else acc)
    | Quote _ => Raise (ValueError "No closing quotation")
    | Escape _ => Raise (ValueError "No escaped character")
    end
| String c s' =>
    match st with
    | Space =>
        if is_whitespace c then
          if to_emit token quoted then go Space "" false (acc ++ [token]) s'
          else go Space token quoted acc s'
        else if is_escape c then go (Escape None) token quoted acc s'
        else if is_quote c then go (Quote c) token quoted acc s'
        else go Word (String c "") quoted acc s'
    | Quote q =>
        if Ascii.eqb c q then go Word token true acc s'
        else if is_escape c && Ascii.eqb q double_quote
             then go (Escape (Some q)) token true acc s'
        else go (Quote q) (snoc token c) true acc s'
    | Escape None => go Word (snoc token c) quoted acc s'
    | Escape (Some q) =>
        if negb (is_escape c) && negb (Ascii.eqb c q)
        then go (Quote q) (snoc (snoc token (ascii_of_nat 92)) c) quoted acc s'
        else go (Quote q) (snoc token c) quoted acc s'
    | Word =>
        if is_whitespace c then
          if to_emit token quoted then go Space "" false (acc ++ [token]) s'
          else go Space token quoted acc s'
        else if is_quote c then go (Quote c) token quoted acc s'
        else if is_escape c then go (Escape None) token quoted acc s'
        else go Word (snoc token c) quoted acc s'
    end
end.

Definition split (s : string) : result (list string) := go Space "" false [] s.

(** A character the lexer takes as part of a word. *)
Definition plain_char (c : ascii) : bool :=
negb (is_whitespace c) && negb (is_quote c) && negb (is_escape c).

(** A text of such characters only. *)
Fixpoint plain (s : string) : bool :=
match s with
| "" => true
| String c s' => plain_char c && plain s'
end.

(** A word that splits as itself: a plain text that is not empty. *)
Definition word (s : string) : bool := negb (String.eqb s "") && plain s.

End Shlex.

(** ** Data of a run *)

(** The reference genome, as far as the module reads it. *)
Record Genome := mkGenome {
  dict_path : string;          (* genome.dict_path *)
  get_chroms : list string     (* genome.get_chroms() *)
}.

(** [GenomicRegion(args)], as far as the module reads it. *)
Record GenomicRegion := mkGenomicRegion {
  region_str : option string;
  genome : Genome
}.

(** The parsed command line. *)
Record Args := mkArgs {
  bam : list string;
  out_dir : string;
  debug : bool;
  add_pat : bool;
  threads : Z;
  suffix : string;
  exclude_flags : Z;
  mapq : Z;
  min_cpg : option Z;
  clip : Z;
  regions_file : option string;
  include_flags : option Z
}.

Definition BAM_SUFF : string := ".bam".

Definition nl : string := String (ascii_of_nat 10) "".
Definition tab : string := String (ascii_of_nat 9) "".

(** ** The collaborators that live outside this module

    [add_cpg_counts.py] imports these from [utils_wgbs], [bam2pat],
    [init_genome] and [genomic_region], or gets them from the operating
    system; they are parameters of the development.  A shell command or a
    spawned process may change the file system in any way and yields an
    outcome; it cannot write in the trace. *)
Record Env := mkEnv {
  match_maker_tool : string;
  add_cpg_count_tool : string;
  extend_region : string → string;
  is_pair_end : string → bool;
  chromosome_order : string → Z;
  validate_bam : string → gset string → bool;
  validate_local_exe : string → result unit;
  isdir : string → bool;
  make_GenomicRegion : Args → result GenomicRegion;
  (** what [subprocess_wrap(cmd, debug)] does: returns or raises *)
  run_subprocess_wrap : string → bool → gset string → result unit * gset string;
  (** what a spawned process does: return code, standard output, standard error *)
  run_popen : bool → string → gset string → (Z * string * string) * gset string;
  (** the order in which a Python set with the given elements is iterated *)
  set_order : list string → list string;
  set_order_perm : ∀ l, set_order l ≡ₚ l;
  (** which of the pending pool jobs completes next, at each step *)
  completes_next : nat → nat
}.

Section Engine.

Context (E : Env).

Definition subprocess_wrap (cmd : string) (dbg : bool) : M unit :=
  emit (SubprocessWrap cmd dbg) ;;;
  λ w, let '(r, fs) := run_subprocess_wrap E cmd dbg (files w) in
       (r, mkWorld fs (trace w)).

(** [p = subprocess.Popen(...); output, error = p.communicate()], with
    [cmd] itself when [shell=True] and with [shlex.split(cmd)] otherwise:
    then the split may raise, before any process is started. *)
Definition popen_communicate (shell : bool) (cmd : string) : M (Z * string * string) :=
  (if shell then ret ()
   else match Shlex.split cmd with
        | Ok _ => ret ()
        | Raise e => raise e
        end) ;;;
  emit (Popen shell cmd) ;;;
  λ w, let '(r, fs) := run_popen E shell cmd (files w) in
       (Ok r, mkWorld fs (trace w)).

(** *** [proc_chr] *)

(** The arguments of one [proc_chr] call. *)
Record JobParams := mkJob {
  input_path : string;
  out_path_name : string;
  region : string;
  job_genome : Genome;
  header_path : string;
  paired_end : bool;
  ex_flags : Z;
  job_mapq : Z;
  job_debug : bool;
  job_min_cpg : option Z;
  job_clip : Z;
  bed_file : option string;
  job_add_pat : bool;
  in_flags : option Z
}.

Definition unsorted_bam (out_path_name : string) : string :=
  out_path_name +:+ "_unsorted.output.bam".
Definition out_path (out_path_name : string) : string :=
  out_path_name +:+ ".output.bam".

(** Lines 37-45: the [samtools view] stage, up to and including its pipe. *)
Definition view_cmd (p : JobParams) : string :=
  let in_flags :=
    match in_flags p with
    | None => if paired_end p then "-f 3" else ""
    | Some f => "-f " +:+ Str.of_Z f
    end in
  let cmd := "samtools view " +:+ input_path p +:+ " " +:+ region p
             +:+ " -q " +:+ Str.of_Z (job_mapq p)
             +:+ " -F " +:+ Str.of_Z (ex_flags p) +:+ " " +:+ in_flags in
  match bed_file p with
  | Some b => cmd +:+ "-M -L " +:+ b +:+ " | "
  | None => cmd +:+ "| "
  end.

(** Lines 37-56: the whole pipeline command. *)
Definition pipeline_cmd (p : JobParams) : string :=
  let cmd := view_cmd p in
  let cmd := if job_debug p then cmd +:+ " head -200 | " else cmd in
  let cmd := if paired_end p then cmd +:+ match_maker_tool E +:+ " | " else cmd in
  let cmd := cmd +:+ add_cpg_count_tool E +:+ " " +:+ dict_path (job_genome p)
             +:+ " " +:+ extend_region E (region p)
             +:+ " --clip " +:+ Str.of_Z (job_clip p) in
  let cmd := match job_min_cpg p with
             | Some m => cmd +:+ " --min_cpg " +:+ Str.of_Z m
             | None => cmd
             end in
  let cmd := if job_add_pat p then cmd +:+ " --pat" else cmd in
  cmd +:+ " | cat " +:+ header_path p +:+ " - | samtools view -b - > "
      +:+ unsorted_bam (out_path_name p).

Definition sort_cmd (p : JobParams) : string :=
  "samtools sort -o " +:+ out_path (out_path_name p)
    +:+ " -T " +:+ Str.dirname (out_path (out_path_name p))
    +:+ " " +:+ unsorted_bam (out_path_name p).

Definition proc_chr (p : JobParams) : M string :=
  subprocess_wrap (pipeline_cmd p) (job_debug p) ;;;
  subprocess_wrap (sort_cmd p) (job_debug p) ;;;
  os_remove (unsorted_bam (out_path_name p)) ;;;
  ret (out_path (out_path_name p)).

(** The files a job names as outputs of its stages. *)
Definition job_writes (p : JobParams) : list string :=
  [unsorted_bam (out_path_name p); out_path (out_path_name p)].

(** *** [get_header_command], [proc_header] *)

Definition get_header_command (input_path : string) : string :=
  "samtools view -H " +:+ input_path.

Definition proc_header (input_path out_path : string) (dbg : bool) : M string :=
  subprocess_wrap (get_header_command input_path +:+ " > " +:+ out_path +:+ " ") dbg ;;;
  ret out_path.

(** *** [sorted(l, key=key)]

    Python's sort is stable, and a stable sort has one possible result:
    the one insertion from the right computes. *)
Fixpoint insert_by (key : string → Z) (x : string) (l : list string) : list string :=
  match l with
  | [] => [x]
  | y :: l' => if (key x <=? key y)%Z then x :: y :: l' else y :: insert_by key x l'
  end.
Fixpoint sorted_by (key : string → Z) (l : list string) : list string :=
  match l with
  | [] => []
  | x :: l' => insert_by key x (sorted_by key l')
  end.

(** *** [BamMethylData] *)

Record BamMethylData := mkBamMethylData {
  self_args : Args;
  self_out_dir : string;
  self_bam_path : string;
  self_debug : bool;
  self_add_pat : bool;
  self_gr : GenomicRegion
}.

Definition lift {A} (r : result A) : M A := λ w, (r, w).

Definition validate_input (self : BamMethylData) : M unit :=
  (λ w, let _ := validate_bam E (self_bam_path self) (files w) in (Ok (), w)) ;;;
  if isdir E (self_out_dir self) then ret ()
  else raise (IllegalArgumentError ("Invalid output dir: " +:+ self_out_dir self)).

Definition BamMethylData_init (args : Args) (bam_path : string) : M BamMethylData :=
  gr <- lift (make_GenomicRegion E args) ;;
  let self := mkBamMethylData args (out_dir args) bam_path (debug args) (add_pat args) gr in
  validate_input self ;;;
  ret self.

(** The truth value of [self.gr.region_str]. *)
Definition truthy (o : option string) : bool :=
  match o with
  | None => false
  | Some s => negb (String.eqb s "")
  end.

Definition idxstats_cmd (bam_path : string) : string :=
  "samtools idxstats " +:+ bam_path +:+ " | cut -f1 ".

Definition no_chroms_msg : string :=
  "[wt acc] Failed retrieving valid chromosome names. "
  +:+ "Perhaps you are using a wrong genome reference. "
  +:+ "Try running:" +:+ nl +:+ tab +:+ tab +:+ "wgbstools set_default_ref -ls"
  +:+ nl +:+ "Make sure the chromosomes in the bam header exists in the reference fasta".

(** [output.decode()[:-1].split('\n')] *)
Definition parse_chroms (output : string) : list string :=
  Str.split (ascii_of_nat 10) (Str.drop_last 1 output).

(** [list(set(bam_chroms) & set(ref_chroms))] *)
Definition intersect_chroms (bam_chroms ref_chroms : list string) : list string :=
  set_order E (remove_dups (list_intersection bam_chroms ref_chroms)).

Definition set_regions (self : BamMethylData) : M (list string) :=
  if truthy (region_str (self_gr self)) then
    ret (option_list (region_str (self_gr self)))
  else
    let cmd := idxstats_cmd (self_bam_path self) in
    p <- popen_communicate true cmd ;;
    let '(returncode, output, error) := p in
    if negb (returncode =? 0)%Z || String.eqb output "" then
      emit (Eprint ("[wt acc] Failed with samtools idxstats " +:+ Str.of_Z returncode
                    +:+ nl +:+ output +:+ nl +:+ error)) ;;;
      emit (Eprint cmd) ;;;
      emit (Eprint "[wt acc] falied to find chromosomes") ;;;
      ret []
    else
      let bam_chroms := parse_chroms output in
      let ref_chroms := get_chroms (genome (self_gr self)) in
      let intersected_chroms := intersect_chroms bam_chroms ref_chroms in
      match intersected_chroms with
      | [] => emit (Eprint no_chroms_msg) ;;; raise (IllegalArgumentError "Failed")
      | _ => ret (sorted_by (chromosome_order E) intersected_chroms)
      end.

(** *** The worker pool

    [apply_async] hands a job to the pool and returns a handle; the jobs
    complete in an order the program does not control, here the order
    [completes_next] picks among the pending ones; [get] on a handle
    returns that job's value or raises again what the job raised.  A job
    runs as one step: the stages of two jobs are not interleaved. *)
Definition Handles := gmap nat (result (option string)).

Fixpoint pool_join (worker : JobParams → M (option string))
    (fuel step : nat) (pending : list (nat * JobParams))
    (done : Handles) (w : World) : Handles * World :=
  match fuel with
  | 0 => (done, w)
  | S fuel' =>
      let i := completes_next E step `mod` length pending in
      match pending !! i with
      | None => (done, w)
      | Some (h, prm) =>
          let '(r, w') := worker prm w in
          pool_join worker fuel' (S step) (delete i pending) (<[h := r]> done) w'
      end
  end.

Definition pool_close_join (worker : JobParams → M (option string))
    (jobs : list (nat * JobParams)) : M Handles :=
  emit PoolJoin ;;;
  λ w, let '(done, w') := pool_join worker (length jobs) 0 jobs ∅ w in (Ok done, w').

(** [pr.get()] *)
Definition get (done : Handles) (h : nat) : M (option string) :=
  match done !! h with
  | Some r => lift r
  | None => raise (OtherError "job not finished")
  end.

(** [[pr.get() for pr in processes]] *)
Fixpoint get_all (done : Handles) (hs : list nat) : M (list (option string)) :=
  match hs with
  | [] => ret []
  | h :: hs' => r <- get done h ;; rs <- get_all done hs' ;; ret (r :: rs)
  end.

(** *** [BamMethylData.start_threads] *)

(** [op.join(self.out_dir, op.basename(self.bam_path)[:-4])] *)
Definition run_name (self : BamMethylData) : string :=
  Str.path_join (self_out_dir self) (Str.drop_last 4 (Str.basename (self_bam_path self))).

Definition region_out_path_name (name c : string) : string := name +:+ "_" +:+ c.

(** The [params] tuple of lines 171-174, and the arguments of lines 185-188. *)
Definition job_params (self : BamMethylData) (out_path_name c header_path : string)
    : JobParams :=
  let args := self_args self in
  mkJob (self_bam_path self) out_path_name c (genome (self_gr self)) header_path
        (is_pair_end E (self_bam_path self)) (exclude_flags args) (mapq args)
        (self_debug self) (min_cpg args) (clip args) (regions_file args)
        (self_add_pat self) (include_flags args).

(** The loop of lines 169-175: one [apply_async] per region, in order. *)
Fixpoint submit_all (self : BamMethylData) (name header_path : string)
    (h : nat) (regions : list string) : M (list (nat * JobParams)) :=
  match regions with
  | [] => ret []
  | c :: cs =>
      emit (ApplyAsync h c) ;;;
      processes <- submit_all self name header_path (S h) cs ;;
      ret ((h, job_params self (region_out_path_name name c) c header_path) :: processes)
  end.

(** The handles and jobs that loop builds, and the events it leaves. *)
Fixpoint jobs_of (self : BamMethylData) (name header_path : string)
    (h : nat) (regions : list string) : list (nat * JobParams) :=
  match regions with
  | [] => []
  | c :: cs =>
      (h, job_params self (region_out_path_name name c) c header_path)
        :: jobs_of self name header_path (S h) cs
  end.

Fixpoint submit_events (h : nat) (regions : list string) : list event :=
  match regions with
  | [] => []
  | c :: cs => ApplyAsync h c :: submit_events (S h) cs
  end.

(** The per-region output path of region [c]. *)
Definition region_out_path (name c : string) : string :=
  out_path (region_out_path_name name c).

(** [with Pool(threads) as p]: the pool refuses a size below one. *)
Definition pool_open (threads : Z) : M unit :=
  if (threads <? 1)%Z then raise (ValueError "Number of processes must be at least 1")
  else emit (PoolOpen threads).

(** Lines 165-188: the final path and the list [res].  [worker] is the
    function the jobs run, [proc_chr] in the program; a job's value is a
    path or [None]. *)
Definition collect_results (worker : JobParams → M (option string))
    (self : BamMethylData) (name header_path : string)
    : M (string * list (option string)) :=
  let args := self_args self in
  match region_str (self_gr self) with
  | None =>
      let final_path := name +:+ "." +:+ suffix args +:+ BAM_SUFF in
      pool_open (threads args) ;;;
      regions <- set_regions self ;;
      processes <- submit_all self name header_path 0 regions ;;
      match processes with
      | [] => raise (IllegalArgumentError "Empty bam file")
      | _ =>
          done <- pool_close_join worker processes ;;
          res <- get_all done (map fst processes) ;;
          ret (final_path, res)
      end
  | Some r =>
      let region_str_for_name := Str.replace "-" "_" (Str.replace ":" "_" r) in
      let final_path := name +:+ "." +:+ region_str_for_name
                        +:+ "." +:+ suffix args +:+ BAM_SUFF in
      let out_path_name := region_out_path_name name "1" in
      r1 <- worker (job_params self out_path_name r header_path) ;;
      ret (final_path, [r1])
  end.

Definition merge_cmd (header_path final_path : string) (paths : list string) : string :=
  "samtools merge -c -p -f -h " +:+ header_path +:+ " " +:+ final_path +:+ " "
    +:+ Str.join " " paths.

Definition index_cmd (final_path : string) : string := "samtools index " +:+ final_path.

(** The paths of a result list without [None]. *)
Definition paths_of (res : list (option string)) : list string := omap id res.

(** Lines 220-222: [res.append(header_path); list(map(os.remove, res))] *)
Definition remove_small_files (paths : list string) (header_path : string) : M unit :=
  for_each os_remove (paths ++ [header_path]).

(** Lines 194-219: the merge and the index.  Neither return code is read. *)
Definition merge_and_index (header_path final_path : string)
    (res : list (option string)) : M unit :=
  emit (Print ": finished processing each chromosome") ;;;
  let cmd := merge_cmd header_path final_path (paths_of res) in
  emit (Print ": starting cat of files") ;;;
  _ <- popen_communicate false cmd ;;
  emit (Print ": finished cat of files") ;;;
  let idx_command := index_cmd final_path in
  emit (Print "starting index of output bam ") ;;;
  _ <- popen_communicate false idx_command ;;
  emit (Print ": finished index of output bam").

(** Lines 189-222: the check of the results, the merge, the index and
    the removal of the small files. *)
Definition merge_and_cleanup (header_path final_path : string)
    (res : list (option string)) : M unit :=
  emit (Print "finished adding CpG counts") ;;;
  if bool_decide (None ∈ res) then
    emit (Print "threads failed") ;;; ret ()
  else
    merge_and_index header_path final_path res ;;;
    remove_small_files (paths_of res) header_path.

Definition header_path_of (self : BamMethylData) : string :=
  run_name self +:+ ".header".

(** Lines 161-164: the banner and the extraction of the header. *)
Definition extract_header (self : BamMethylData) : M string :=
  emit (Print ": *** starting processing of each chromosome") ;;;
  proc_header (self_bam_path self) (header_path_of self) (self_debug self).

(** Lines 161-188: up to the point where [final_path] and [res] are known. *)
Definition gather_results (worker : JobParams → M (option string))
    (self : BamMethylData) : M (string * list (option string)) :=
  extract_header self ;;;
  collect_results worker self (run_name self) (header_path_of self).

Definition start_threads_with (worker : JobParams → M (option string))
    (self : BamMethylData) : M unit :=
  fr <- gather_results worker self ;;
  merge_and_cleanup (header_path_of self) (fst fr) (snd fr).

(** [proc_chr] as a job: its value is the path it returns. *)
Definition proc_chr_job (p : JobParams) : M (option string) :=
  r <- proc_chr p ;; ret (Some r).

Definition start_threads (self : BamMethylData) : M unit :=
  start_threads_with proc_chr_job self.

(** *** [main], after the command line is parsed *)

(** The body of the loop of [main], for one input file. *)
Definition main_body (args : Args) (b : string) : M unit :=
  ok <- (λ w, (Ok (validate_bam E b (files w)), w)) ;;
  if negb ok then emit (Eprint ("[wt add_cpg_counts] Skipping " +:+ b))
  else self <- BamMethylData_init args b ;; start_threads self.

Definition main (args : Args) : M unit :=
  lift (validate_local_exe E (add_cpg_count_tool E)) ;;;
  for_each (main_body args) (bam args).

End Engine.

Arguments mkJob : clear implicits.

(** ** Vocabulary of the statements *)

(** A job that returns, returns the sorted path of its own region. *)
Definition returns_own_path (prm : JobParams) (o : result (option string)) : Prop :=
  ∀ v, o = Ok v → v = Some (out_path (out_path_name prm)).

(** The world in which the resolver runs in a run without an explicit
    region: the header is extracted and the pool is open. *)
Definition at_resolver (self : BamMethylData) (wh : World) : World :=
  mkWorld (files wh) (trace wh ++ [PoolOpen (threads (self_args self))]).

(** A command that [Popen] can start: given to the shell as it is, or
    split into arguments without an error. *)
Definition spawnable (shell : bool) (cmd : string) : Prop :=
  shell = true ∨ ∃ argv, Shlex.split cmd = Ok argv.



(** The command that extracts the header of a run. *)
Definition header_cmd (self : BamMethylData) : string :=
  get_header_command (self_bam_path self) +:+ " > " +:+ header_path_of self +:+ " ".

(** The events of the merge and index phase, and the file system it leaves. *)
Definition merge_index_events (header_path final_path : string) (paths : list string)
    : list event :=
  [Print ": finished processing each chromosome";
   Print ": starting cat of files";
   Popen false (merge_cmd header_path final_path paths);
   Print ": finished cat of files";
   Print "starting index of output bam ";
   Popen false (index_cmd final_path);
   Print ": finished index of output bam"].

Definition files_after_merge_index (E : Env) (header_path final_path : string)
    (paths : list string) (fs : gset string) : gset string :=
  snd (run_popen E false (index_cmd final_path)
         (snd (run_popen E false (merge_cmd header_path final_path paths) fs))).

(** The events of the worker pool. *)
Definition pool_event (e : event) : bool :=
  match e with
  | PoolOpen _ | ApplyAsync _ _ | PoolJoin => true
  | _ => false
  end.

(** A process spawned without a shell: in this module, the merge and
    the index. *)
Definition direct_spawn (e : event) : bool :=
  match e with
  | Popen false _ => true
  | _ => false
  end.

(** A process spawned through the shell: in this module, the contig listing. *)
Definition listing_event (e : event) : bool :=
  match e with
  | Popen true _ => true
  | _ => false
  end.

(** A computation that, from any world, only adds events that satisfy [P]. *)
Definition emits_only (P : event → bool) {A} (m : M A) : Prop :=
  ∀ w, ∃ evs, trace (snd (m w)) = trace w ++ evs ∧ Forall (λ e, P e = true) evs.

(** No merge and no index. *)
Definition no_direct_spawn (e : event) : bool := negb (direct_spawn e).

(** No use of the pool and no contig listing. *)
Definition inline_only (e : event) : bool := negb (pool_event e || listing_event e).

(** The final path of either kind of run: the run name, a dot, and a
    text that ends in [.bam]. *)
Definition final_path_shape (self : BamMethylData) (final_path : string) : Prop :=
  ∃ mid, final_path = run_name self +:+ "." +:+ mid +:+ ".bam".

(** The final path of a run for the explicit region [r]. *)
Definition region_final_path (self : BamMethylData) (r : string) : string :=
  run_name self +:+ "." +:+ Str.replace "-" "_" (Str.replace ":" "_" r)
    +:+ "." +:+ suffix (self_args self) +:+ BAM_SUFF.

(** Modelled from the spec: the header-aware merge is an external tool
    ([samtools merge]), not code of this repository.  Section 4.5 of the
    specification has it be "a straight ordered concatenation under the
    shared header" of the per-region artifacts: the records of the merged
    file are those of the input files, file after file in the order of
    the arguments.  [contigs_of] gives the contigs of the records of a
    file, in their order; the input files are the arguments after the
    program, the sub-command, the options [-c -p -f], [-h] with the
    header, and the output. *)
Definition merged_contigs (contigs_of : string → list string) (argv : list string)
    : list string :=
  concat (map contigs_of (drop 8 argv)).

(** The environment with another order of job completion. *)
Definition with_schedule (E : Env) (sched : nat → nat) : Env :=
  mkEnv (match_maker_tool E) (add_cpg_count_tool E) (extend_region E) (is_pair_end E)
        (chromosome_order E) (validate_bam E) (validate_local_exe E) (isdir E)
        (make_GenomicRegion E) (run_subprocess_wrap E) (run_popen E)
        (set_order E) (set_order_perm E) sched.

(** ** A sample environment, for running the model

    A reference genome with [chr1], [chr2], [chr10] and [chrX]; an
    alignment file over [chr2], [chr10], [chr1] and a contig the genome
    does not know; shell commands that create the files they name after
    [>] or [-o]; a merge that writes its output and an index that writes
    the [.bai] next to it; Python sets that iterate in reverse; a pool
    whose second pending job always completes first. *)
Module Sample.

Definition chromosome_order (c : string) : Z :=
  if String.eqb c "chr1" then 1
  else if String.eqb c "chr2" then 2
  else if String.eqb c "chr10" then 10
  else if String.eqb c "chrX" then 10000
  else 10003.

(** The words that follow [>] or [-o] in a command. *)
Fixpoint targets (ws : list string) : list string :=
  match ws with
  | o :: ((f :: _) as ws') =>
      if String.eqb o ">" || String.eqb o "-o" then f :: targets ws' else targets ws'
  | _ => []
  end.

Definition run_subprocess_wrap (cmd : string) (dbg : bool) (fs : gset string)
    : result unit * gset string :=
  (Ok (), fs ∪ list_to_set (targets (String.words cmd))).

Definition idxstats_output : string :=
  "chr2" +:+ nl +:+ "chr10" +:+ nl +:+ "chr1" +:+ nl +:+ "chrUn_1" +:+ nl +:+ "*" +:+ nl.

Definition run_popen (shell : bool) (cmd : string) (fs : gset string)
    : (Z * string * string) * gset string :=
  if shell then ((0%Z, idxstats_output, ""), fs)
  else match String.words cmd with
       | _ :: "merge" :: _ :: _ :: _ :: _ :: _ :: final :: _ => ((0%Z, "", ""), fs ∪ {[final]})
       | _ :: "index" :: final :: _ => ((0%Z, "", ""), fs ∪ {[final +:+ ".bai"]})
       | _ => ((1%Z, "", ""), fs)
       end.

Definition hg : Genome := mkGenome "/ref/hg.dict" ["chr1"; "chr2"; "chr10"; "chrX"].

Definition env : Env :=
  mkEnv "match_maker" "add_cpg_counts" (λ r, r) (λ _, true) chromosome_order
        (λ _ _, true) (λ _, Ok ()) (λ _, true)
        (λ _, Ok (mkGenomicRegion None hg))
        run_subprocess_wrap run_popen
        reverse reverse_Permutation
        (λ _, 1).

Definition args : Args :=
  mkArgs ["/data/s1.bam"] "/out" false false 4 "counts" 1796 10 (Some 1%Z) 0 None None.

Definition self : BamMethylData :=
  mkBamMethylData args "/out" "/data/s1.bam" false false (mkGenomicRegion None hg).

Definition w0 : World := mkWorld {["/data/s1.bam"]} [].

(** The same run for an explicit region. *)
Definition self_region : BamMethylData :=
  mkBamMethylData args "/out" "/data/s1.bam" false false
                  (mkGenomicRegion (Some "chr1:100-200") hg).

(** A worker whose job on [chr2] yields [None]. *)
Definition flaky_job (p : JobParams) : M (option string) :=
  if String.eqb (region p) "chr2" then ret None else proc_chr_job env p.

(** An environment where the merge and the index fail: they return 1
    and write nothing. *)
Definition run_popen_failing (shell : bool) (cmd : string) (fs : gset string)
    : (Z * string * string) * gset string :=
  if shell then ((0%Z, idxstats_output, ""), fs) else ((1%Z, "", "merge: failed"), fs).

Definition env_merge_fails : Env :=
  mkEnv "match_maker" "add_cpg_counts" (λ r, r) (λ _, true) chromosome_order
        (λ _ _, true) (λ _, Ok ()) (λ _, true)
        (λ _, Ok (mkGenomicRegion None hg))
        run_subprocess_wrap run_popen_failing
        reverse reverse_Permutation
        (λ _, 1).

(** An environment whose reference genome names its contigs [1], [2]
    and [X], so that no contig of the alignment file is known to it,
    and an invocation on two files. *)
Definition other_genome : Genome := mkGenome "/ref/grch.dict" ["1"; "2"; "X"].

Definition env_mismatch : Env :=
  mkEnv "match_maker" "add_cpg_counts" (λ r, r) (λ _, true) chromosome_order
        (λ _ _, true) (λ _, Ok ()) (λ _, true)
        (λ _, Ok (mkGenomicRegion None other_genome))
        run_subprocess_wrap run_popen
        reverse reverse_Permutation
        (λ _, 1).

Definition args2 : Args :=
  mkArgs ["/data/s1.bam"; "/data/s2.bam"] "/out" false false 4 "counts" 1796 10
         (Some 1%Z) 0 None None.

Definition self_mismatch : BamMethylData :=
  mkBamMethylData args2 "/out" "/data/s1.bam" false false
                  (mkGenomicRegion None other_genome).

End Sample.


(** ** The rest of the module *)

(** Line 182: [self.gr.region_str.replace(":", "_").replace("-", "_")] *)
Definition region_str_for_name (r : string) : string :=
  Str.replace "-" "_" (Str.replace ":" "_" r).

(** ** More vocabulary *)

(** Messages on standard error. *)
Definition is_eprint (e : event) : bool :=
  match e with
  | Eprint _ => true
  | _ => false
  end.

(** Anything but the report of the failure sentinel. *)
Definition not_threads_failed (e : event) : bool :=
  match e with
  | Print msg => negb (String.eqb msg "threads failed")
  | _ => true
  end.

(** A shell command that [subprocess_wrap] fails on, whatever the files. *)
Definition always_raises (E : Env) (cmd : string) (dbg : bool) : Prop :=
  ∀ fs, ∃ e, fst (run_subprocess_wrap E cmd dbg fs) = Raise e.

(** What is known of a job whose pipeline always fails: it raises. *)
Definition raises_if_pipeline_fails (E : Env) (prm : JobParams)
    (o : result (option string)) : Prop :=
  always_raises E (pipeline_cmd E prm) (job_debug prm) → ∃ e, o = Raise e.

(** The job of region [c] in a run over the resolved regions. *)
Definition region_job (E : Env) (self : BamMethylData) (c : string) : JobParams :=
  job_params E self (region_out_path_name (run_name self) c) c (header_path_of self).

(** The events of a failed contig listing. *)
Definition listing_failed_events (cmd : string) (returncode : Z) (output error : string)
    : list event :=
  [Popen true cmd;
   Eprint ("[wt acc] Failed with samtools idxstats " +:+ Str.of_Z returncode
           +:+ nl +:+ output +:+ nl +:+ error);
   Eprint cmd;
   Eprint "[wt acc] falied to find chromosomes"].

(** ** More sample environments *)
Module Cases.

(** The sample environment with some of its parts replaced. *)
Definition env_of (vb : string → gset string → bool) (dir : string → bool)
  (sw : string → bool → gset string → result unit * gset string)
  (po : bool → string → gset string → (Z * string * string) * gset string) : Env :=
mkEnv "match_maker" "add_cpg_counts" (λ r, r) (λ _, true) Sample.chromosome_order
      vb (λ _, Ok ()) dir (λ _, Ok (mkGenomicRegion None Sample.hg))
      sw po reverse reverse_Permutation (λ _, 1).

(** The contig listing exits with status 1. *)
Definition env_listing_fails : Env :=
env_of (λ _ _, true) (λ _, true) Sample.run_subprocess_wrap
  (λ shell cmd fs,
     if shell then ((1%Z, "", "idxstats: failed"), fs)
     else Sample.run_popen shell cmd fs).

(** Every shell command raises. *)
Definition env_shell_fails : Env :=
env_of (λ _ _, true) (λ _, true)
  (λ _ _ fs, (Raise (IllegalArgumentError "Failed"), fs)) Sample.run_popen.

(** Only paths that end in [m] pass [validate_bam]. *)
Definition env_checks_bam : Env :=
env_of (λ b _, Str.ends_with "m" b) (λ _, true)
  Sample.run_subprocess_wrap Sample.run_popen.

Definition args3 : Args :=
mkArgs ["/data/notes.txt"; "/data/s1.bam"] "/out" false false 4 "counts" 1796 10
       (Some 1%Z) 0 None None.

(** No directory exists. *)
Definition env_no_outdir : Env :=
env_of (λ _ _, true) (λ _, false) Sample.run_subprocess_wrap Sample.run_popen.

(** The sort of region [chr2] returns but writes nothing. *)
Definition run_subprocess_wrap_lazy_sort (cmd : string) (dbg : bool) (fs : gset string)
  : result unit * gset string :=
match String.words cmd with
| _ :: "sort" :: _ :: "/out/s1_chr2.output.bam" :: _ => (Ok (), fs)
| _ => Sample.run_subprocess_wrap cmd dbg fs
end.

Definition env_lazy_sort : Env :=
env_of (λ _ _, true) (λ _, true) run_subprocess_wrap_lazy_sort Sample.run_popen.

(** The pipeline of region [chr2] raises. *)
Definition run_subprocess_wrap_chr2_fails (cmd : string) (dbg : bool) (fs : gset string)
  : result unit * gset string :=
match String.words cmd with
| _ :: "view" :: _ :: "chr2" :: _ => (Raise (IllegalArgumentError "Failed"), fs)
| _ => Sample.run_subprocess_wrap cmd dbg fs
end.

Definition env_chr2_fails : Env :=
env_of (λ _ _, true) (λ _, true) run_subprocess_wrap_chr2_fails Sample.run_popen.

(** The merge and the index write their files and exit with status 1. *)
Definition run_popen_status_1 (shell : bool) (cmd : string) (fs : gset string)
  : (Z * string * string) * gset string :=
if shell then Sample.run_popen shell cmd fs
else ((1%Z, "", "warning"), snd (Sample.run_popen shell cmd fs)).

Definition env_status_1 : Env :=
env_of (λ _ _, true) (λ _, true) Sample.run_subprocess_wrap run_popen_status_1.

(** The sample environment over another genome, with another contig
  listing, another iteration order of sets and another order of job
  completion. *)
Definition env_over (g : Genome) (listing : string)
  (so : list string → list string) (so_perm : ∀ l, so l ≡ₚ l)
  (sched : nat → nat) : Env :=
mkEnv "match_maker" "add_cpg_counts" (λ r, r) (λ _, true) Sample.chromosome_order
      (λ _ _, true) (λ _, Ok ()) (λ _, true) (λ _, Ok (mkGenomicRegion None g))
      Sample.run_subprocess_wrap
      (λ shell cmd fs,
         if shell then ((0%Z, listing, ""), fs) else Sample.run_popen shell cmd fs)
      so so_perm sched.

Definition self_over (g : Genome) (a : Args) : BamMethylData :=
mkBamMethylData a "/out" "/data/s1.bam" false false (mkGenomicRegion None g).



(** Two contigs to which [chromosome_order] gives the same value, with
  sets that iterate in reverse and sets that iterate in order. *)
Definition genome_ties : Genome := mkGenome "/ref/hg.dict" ["chr1"; "chrUn_a"; "chrUn_b"].

Definition listing_ties : string :=
"chr1" +:+ nl +:+ "chrUn_a" +:+ nl +:+ "chrUn_b" +:+ nl.

Definition env_ties : Env :=
env_over genome_ties listing_ties reverse reverse_Permutation (λ _, 1).


(** A contig whose name is that of another one followed by [_unsorted];
  the job of the second region completes first. *)
Definition genome_unsorted_contig : Genome :=
mkGenome "/ref/hg.dict" ["chr1"; "chr1_unsorted"].

Definition env_unsorted_contig : Env :=
env_over genome_unsorted_contig ("chr1" +:+ nl +:+ "chr1_unsorted" +:+ nl)
         reverse reverse_Permutation (λ _, 1).

(** The contig listing exits with status 0 and prints nothing: an
  alignment file without contigs. *)
Definition env_listing_empty : Env :=
env_over Sample.hg "" reverse reverse_Permutation (λ _, 1).

(** A pool of no process ([--threads 0]). *)
Definition args_no_threads : Args :=
mkArgs ["/data/s1.bam"] "/out" false false 0 "counts" 1796 10 (Some 1%Z) 0 None None.

(** An output suffix with a quotation mark that is not closed. *)
Definition args_quote : Args :=
mkArgs ["/data/s1.bam"] "/out" false false 4 "it's" 1796 10 (Some 1%Z) 0 None None.

(** The contigs of the records of the per-region files of the sample run:
  each file holds the reads of its region. *)
Definition contigs_of (path : string) : list string :=
if String.eqb path "/out/s1_chr1.output.bam" then ["chr1"]
else if String.eqb path "/out/s1_chr2.output.bam" then ["chr2"]
else if String.eqb path "/out/s1_chr10.output.bam" then ["chr10"]
else [].

End Cases.

(** * Theorems *)

(** ** Facts about strings *)

Lemma str_app_cons (x : ascii) (a b : string) : String x a +:+ b = String x (a +:+ b).
Proof. reflexivity. Qed.

Lemma str_app_nil_l (b : string) : "" +:+ b = b.
Proof. reflexivity. Qed.

Lemma str_app_assoc (a b c : string) : (a +:+ b) +:+ c = a +:+ b +:+ c.
Proof.
  induction a as [|x a IH]; [done |]. by rewrite !str_app_cons, IH.
Qed.

Lemma str_length_app (a b : string) :
  String.length (a +:+ b) = String.length a + String.length b.
Proof.
  induction a as [|x a IH]; [done |]. rewrite str_app_cons. simpl. by rewrite IH.
Qed.

(** A common suffix cancels. *)
Lemma str_app_inj_r (t a b : string) : a +:+ t = b +:+ t → a = b.
Proof.
  revert b. induction a as [|x a IH]; intros [|y b] H;
    rewrite ?str_app_cons, ?str_app_nil_l in H.
  - done.
  - apply (f_equal String.length) in H. simpl in H.
    rewrite str_length_app in H. lia.
  - apply (f_equal String.length) in H. simpl in H.
    rewrite str_length_app in H. lia.
  - injection H as -> H. f_equal. by apply IH.
Qed.

Lemma region_out_path_name_inj (name c1 c2 : string) :
  region_out_path_name name c1 = region_out_path_name name c2 → c1 = c2.
Proof.
  unfold region_out_path_name. intros H.
  apply (inj (String.app name)) in H. by apply (inj (String.app "_")) in H.
Qed.

Lemma out_path_inj (p1 p2 : string) : out_path p1 = out_path p2 → p1 = p2.
Proof. apply str_app_inj_r. Qed.

Lemma unsorted_bam_inj (p1 p2 : string) : unsorted_bam p1 = unsorted_bam p2 → p1 = p2.
Proof. apply str_app_inj_r. Qed.

Lemma unsorted_ne_out (p : string) : unsorted_bam p ≠ out_path p.
Proof. unfold unsorted_bam, out_path. intros H. by apply (inj (String.app p)) in H. Qed.

(** The unsorted file of one job is the sorted file of another exactly
    when the second region is the first followed by [_unsorted]. *)
Lemma unsorted_eq_out (name c1 c2 : string) :
  unsorted_bam (region_out_path_name name c1) = out_path (region_out_path_name name c2)
  ↔ c2 = c1 +:+ "_unsorted".
Proof.
  unfold unsorted_bam, out_path, region_out_path_name.
  change "_unsorted.output.bam" with ("_unsorted" +:+ ".output.bam").
  rewrite <- (str_app_assoc _ "_unsorted" ".output.bam"). split.
  - intros H. apply str_app_inj_r in H. rewrite !str_app_assoc in H.
    apply (inj (String.app name)) in H. by apply (inj (String.app "_")) in H.
  - intros ->. by rewrite !str_app_assoc.
Qed.

(** ** C6: the options of the filter stage *)

(** C6 (the code departs from it).  A paired-end job with a BED file:
    the command glues the argument of [-f] to the [-M] option, so the
    inclusion mask reads [3-M] and no [-M] option is left. *)
Theorem view_cmd_glues_flags_to_bed_options :
  let p := mkJob "in.bam" "out/in_chr1" "chr1" Sample.hg "out/in.header"
                 true 1796 10 false None 0 (Some "r.bed") false None in
  view_cmd p = "samtools view in.bam chr1 -q 10 -F 1796 -f 3-M -L r.bed | "
  ∧ String.words (view_cmd p)
    = ["samtools"; "view"; "in.bam"; "chr1"; "-q"; "10"; "-F"; "1796";
       "-f"; "3-M"; "-L"; "r.bed"; "|"]
  ∧ "-M" ∉ String.words (view_cmd p).
Proof.
  cbv zeta. split; [reflexivity | split; [reflexivity |]].
  intros H. vm_compute in H. by repeat (apply elem_of_cons in H as [H | H]; [done |]);
    apply elem_of_nil in H.
Qed.

(** ** C10: the paths of the jobs *)

(** C10, as stated, fails: the job of region [chr1] writes its unsorted
    file where the job of region [chr1_unsorted] writes its sorted one. *)
Lemma job_paths_collide :
  let j1 := job_params Sample.env Sample.self
              (region_out_path_name "/out/s1" "chr1") "chr1" "/out/s1.header" in
  let j2 := job_params Sample.env Sample.self
              (region_out_path_name "/out/s1" "chr1_unsorted") "chr1_unsorted" "/out/s1.header" in
  "chr1" ≠ "chr1_unsorted"
  ∧ ¬ (∀ f, f ∈ job_writes j1 → f ∉ job_writes j2).
Proof.
  cbv zeta. split; [done |]. intros H.
  apply (H "/out/s1_chr1_unsorted.output.bam"); vm_compute; set_solver.
Qed.

(** C10 (amended).  Distinct regions have distinct output paths, a job's
    unsorted file is not its sorted file, and two jobs name no common file
    exactly when neither region is the other followed by [_unsorted]. *)
Theorem job_paths_distinct (E : Env) (self : BamMethylData)
    (name header_path c1 c2 : string) :
  c1 ≠ c2 →
  let j1 := job_params E self (region_out_path_name name c1) c1 header_path in
  let j2 := job_params E self (region_out_path_name name c2) c2 header_path in
  out_path (out_path_name j1) ≠ out_path (out_path_name j2)
  ∧ unsorted_bam (out_path_name j1) ≠ out_path (out_path_name j1)
  ∧ unsorted_bam (out_path_name j2) ≠ out_path (out_path_name j2)
  ∧ ((∀ f, f ∈ job_writes j1 → f ∉ job_writes j2)
     ↔ c2 ≠ c1 +:+ "_unsorted" ∧ c1 ≠ c2 +:+ "_unsorted").
Proof.
  intros Hne. cbv zeta. simpl.
  assert (Hout : out_path (region_out_path_name name c1)
                 ≠ out_path (region_out_path_name name c2)).
  { intros H%out_path_inj%region_out_path_name_inj. done. }
  split; [exact Hout |]. split; [apply unsorted_ne_out |].
  split; [apply unsorted_ne_out |].
  unfold job_writes. simpl. split.
  - intros Hdisj. split; intros Heq.
    + apply (Hdisj (unsorted_bam (region_out_path_name name c1))).
      * apply list_elem_of_here.
      * apply list_elem_of_further. apply list_elem_of_singleton.
        by apply unsorted_eq_out.
    + apply (Hdisj (out_path (region_out_path_name name c1))).
      * apply list_elem_of_further, list_elem_of_here.
      * apply elem_of_cons. left. symmetry. by apply unsorted_eq_out.
  - intros [H12 H21] f Hf1 Hf2.
    apply elem_of_cons in Hf1 as [-> | Hf1]; apply elem_of_cons in Hf2 as [Hf2 | Hf2].
    + apply unsorted_bam_inj, region_out_path_name_inj in Hf2. done.
    + apply list_elem_of_singleton in Hf2. by apply unsorted_eq_out in Hf2.
    + apply list_elem_of_singleton in Hf1 as ->. symmetry in Hf2.
      by apply unsorted_eq_out in Hf2.
    + apply list_elem_of_singleton in Hf1 as ->. apply list_elem_of_singleton in Hf2. done.
Qed.

Lemma job_paths_distinct_witness :
  let j1 := job_params Sample.env Sample.self
              (region_out_path_name "/out/s1" "chr1") "chr1" "/out/s1.header" in
  let j2 := job_params Sample.env Sample.self
              (region_out_path_name "/out/s1" "chr2") "chr2" "/out/s1.header" in
  out_path (out_path_name j1) ≠ out_path (out_path_name j2)
  ∧ unsorted_bam (out_path_name j1) ≠ out_path (out_path_name j1)
  ∧ unsorted_bam (out_path_name j2) ≠ out_path (out_path_name j2)
  ∧ ((∀ f, f ∈ job_writes j1 → f ∉ job_writes j2)
     ↔ "chr2" ≠ "chr1" +:+ "_unsorted" ∧ "chr1" ≠ "chr2" +:+ "_unsorted").
Proof.
  apply (job_paths_distinct Sample.env Sample.self "/out/s1" "/out/s1.header" "chr1" "chr2").
  discriminate.
Defined.

(** ** Commands split into arguments *)

Lemma str_app_nil_r (a : string) : a +:+ "" = a.
Proof. induction a as [|x a IH]; [done |]. by rewrite str_app_cons, IH. Qed.

Lemma str_app_empty (s t : string) : s +:+ t = "" → t = "".
Proof. destruct s; [done | discriminate]. Qed.

Lemma snoc_app (t : string) (c : ascii) (w : string) :
  Shlex.snoc t c +:+ w = t +:+ String c w.
Proof. unfold Shlex.snoc. by rewrite str_app_assoc. Qed.

Lemma snoc_ne (t : string) (c : ascii) : Shlex.snoc t c ≠ "".
Proof. unfold Shlex.snoc. intros H. by apply str_app_empty in H. Qed.

Lemma plain_char_inv (c : ascii) :
  Shlex.plain_char c = true →
  Shlex.is_whitespace c = false ∧ Shlex.is_quote c = false ∧ Shlex.is_escape c = false.
Proof.
  unfold Shlex.plain_char. rewrite !andb_true_iff, !negb_true_iff. tauto.
Qed.

Lemma plain_app (a b : string) :
  Shlex.plain (a +:+ b) = Shlex.plain a && Shlex.plain b.
Proof.
  induction a as [|x a IH]; [done |]. rewrite str_app_cons. simpl.
  by rewrite IH, andb_assoc.
Qed.

Lemma word_inv (s : string) : Shlex.word s = true → s ≠ "" ∧ Shlex.plain s = true.
Proof.
  unfold Shlex.word. intros [Hne Hp]%andb_true_iff. split; [| done].
  intros ->. discriminate.
Qed.

Lemma word_app_l (a b : string) :
  Shlex.word a = true → Shlex.plain b = true → Shlex.word (a +:+ b) = true.
Proof.
  intros [Hne Hp]%word_inv Hb. unfold Shlex.word. rewrite plain_app, Hp, Hb.
  destruct a; [done |]. by rewrite str_app_cons.
Qed.

Lemma word_app_r (a b : string) :
  Shlex.plain a = true → Shlex.word b = true → Shlex.word (a +:+ b) = true.
Proof.
  intros Ha [Hne Hp]%word_inv. unfold Shlex.word. rewrite plain_app, Ha, Hp.
  destruct (a +:+ b) eqn:Hab; [| done]. by apply str_app_empty in Hab.
Qed.

(** Inside a word, plain characters up to a blank extend the token,
    and the blank ends it. *)
Lemma go_word_blank (t : string) (acc : list string) (w rest : string) :
  t ≠ "" → Shlex.plain w = true →
  Shlex.go Shlex.Word t false acc (w +:+ String " " rest)
  = Shlex.go Shlex.Space "" false (acc ++ [t +:+ w]) rest.
Proof.
  revert t. induction w as [|c w IH]; intros t Ht Hw.
  - rewrite str_app_nil_l, str_app_nil_r. simpl. unfold Shlex.to_emit.
    by destruct t.
  - simpl in Hw. apply andb_true_iff in Hw as [Hc Hw].
    apply plain_char_inv in Hc as (H1 & H2 & H3).
    rewrite str_app_cons. simpl. rewrite H1, H2, H3.
    rewrite IH by (done || apply snoc_ne). by rewrite snoc_app.
Qed.

Lemma go_word_end (t : string) (acc : list string) (w : string) :
  t ≠ "" → Shlex.plain w = true →
  Shlex.go Shlex.Word t false acc w = Ok (acc ++ [t +:+ w]).
Proof.
  revert t. induction w as [|c w IH]; intros t Ht Hw.
  - rewrite str_app_nil_r. simpl. unfold Shlex.to_emit. by destruct t.
  - simpl in Hw. apply andb_true_iff in Hw as [Hc Hw].
    apply plain_char_inv in Hc as (H1 & H2 & H3).
    simpl. rewrite H1, H2, H3.
    rewrite IH by (done || apply snoc_ne). by rewrite snoc_app.
Qed.

Lemma go_space_blank (acc : list string) (w rest : string) :
  Shlex.word w = true →
  Shlex.go Shlex.Space "" false acc (w +:+ String " " rest)
  = Shlex.go Shlex.Space "" false (acc ++ [w]) rest.
Proof.
  intros [Hne Hw]%word_inv. destruct w as [|c w]; [done |].
  simpl in Hw. apply andb_true_iff in Hw as [Hc Hw].
  apply plain_char_inv in Hc as (H1 & H2 & H3).
  rewrite str_app_cons. simpl. rewrite H1, H2, H3.
  by rewrite go_word_blank.
Qed.

Lemma go_space_end (acc : list string) (w : string) :
  Shlex.word w = true →
  Shlex.go Shlex.Space "" false acc w = Ok (acc ++ [w]).
Proof.
  intros [Hne Hw]%word_inv. destruct w as [|c w]; [done |].
  simpl in Hw. apply andb_true_iff in Hw as [Hc Hw].
  apply plain_char_inv in Hc as (H1 & H2 & H3).
  simpl. rewrite H1, H2, H3. by rewrite go_word_end.
Qed.

(** Words joined by single blanks split into these words. *)
Lemma go_space_join (acc : list string) (ws : list string) :
  Forall (λ w, Shlex.word w = true) ws →
  Shlex.go Shlex.Space "" false acc (Str.join " " ws) = Ok (acc ++ ws).
Proof.
  intros Hws. revert acc. induction Hws as [|w ws Hw Hws IH]; intros acc.
  - simpl. by rewrite app_nil_r.
  - destruct ws as [|w' ws].
    + simpl. by apply go_space_end.
    + change (Str.join " " (w :: w' :: ws))
        with (w +:+ String " " (Str.join " " (w' :: ws))).
      rewrite go_space_blank by done. rewrite IH. by rewrite <- app_assoc.
Qed.

(** The merge command splits into the program, its options, the header,
    the output and the per-region files, in the order of the list. *)
Lemma merge_cmd_split (header_path final_path : string) (paths : list string) :
  Shlex.word header_path = true →
  Shlex.word final_path = true →
  Forall (λ p, Shlex.word p = true) paths →
  Shlex.split (merge_cmd header_path final_path paths)
  = Ok (["samtools"; "merge"; "-c"; "-p"; "-f"; "-h"; header_path; final_path] ++ paths).
Proof.
  intros Hh Hf Hps. unfold Shlex.split, merge_cmd.
  change ("samtools merge -c -p -f -h " +:+ header_path +:+ " " +:+ final_path +:+ " "
          +:+ Str.join " " paths)
    with ("samtools" +:+ String " " ("merge" +:+ String " " ("-c" +:+ String " "
          ("-p" +:+ String " " ("-f" +:+ String " " ("-h" +:+ String " "
          (header_path +:+ String " " (final_path +:+ String " "
          (Str.join " " paths))))))))).
  rewrite !go_space_blank by done. by rewrite go_space_join.
Qed.

Lemma index_cmd_split (final_path : string) :
  Shlex.word final_path = true →
  Shlex.split (index_cmd final_path) = Ok ["samtools"; "index"; final_path].
Proof.
  intros Hf. unfold Shlex.split, index_cmd.
  change ("samtools index " +:+ final_path)
    with ("samtools" +:+ String " " ("index" +:+ String " " final_path)).
  rewrite !go_space_blank by done. by rewrite go_space_end.
Qed.

(** ** Running the monad *)

Lemma bind_ok {A B} (m : M A) (k : A → M B) w a w' :
  m w = (Ok a, w') → bind m k w = k a w'.
Proof. intros H. unfold bind. by rewrite H. Qed.

Lemma bind_raise {A B} (m : M A) (k : A → M B) w e w' :
  m w = (Raise e, w') → bind m k w = (Raise e, w').
Proof. intros H. unfold bind. by rewrite H. Qed.

Lemma bind_inv {A B} (m : M A) (k : A → M B) w b w2 :
  bind m k w = (Ok b, w2) → ∃ a w1, m w = (Ok a, w1) ∧ k a w1 = (Ok b, w2).
Proof.
  unfold bind. destruct (m w) as [[a | e] w1]; [eauto | discriminate].
Qed.

Lemma emit_run (e : event) w :
  emit e w = (Ok (), mkWorld (files w) (trace w ++ [e])).
Proof. reflexivity. Qed.

Tactic Notation "inv_bind" hyp(H) "as" ident(a) ident(w) ident(H1) :=
  apply bind_inv in H as (a & w & H1 & H).

(** [for_each] stops at the first element whose body raises. *)
Lemma for_each_raise {A} (body : A → M unit) (pre : list A) (x : A) (rest : list A)
    w w1 e w2 :
  for_each body pre w = (Ok (), w1) →
  body x w1 = (Raise e, w2) →
  for_each body (pre ++ x :: rest) w = (Raise e, w2).
Proof.
  revert w. induction pre as [|y pre IH]; intros w Hpre Hx; simpl in *.
  - injection Hpre as <-. by apply bind_raise.
  - inv_bind Hpre as u wy Hy. destruct u.
    erewrite bind_ok by eassumption. by apply IH.
Qed.

(** ** The primitive steps *)

Lemma subprocess_wrap_run (E : Env) (cmd : string) (dbg : bool) w r fs :
  run_subprocess_wrap E cmd dbg (files w) = (r, fs) →
  subprocess_wrap E cmd dbg w = (r, mkWorld fs (trace w ++ [SubprocessWrap cmd dbg])).
Proof.
  intros H. unfold subprocess_wrap. rewrite (bind_ok _ _ _ _ _ (emit_run _ _)).
  simpl. by rewrite H.
Qed.

Lemma popen_communicate_run (E : Env) (shell : bool) (cmd : string) w :
  spawnable shell cmd →
  popen_communicate E shell cmd w
  = (Ok (fst (run_popen E shell cmd (files w))),
     mkWorld (snd (run_popen E shell cmd (files w))) (trace w ++ [Popen shell cmd])).
Proof.
  intros Hsp. unfold popen_communicate.
  assert (Hfirst : (if shell then ret ()
                    else match Shlex.split cmd with
                         | Ok _ => ret ()
                         | Raise e => raise e
                         end) w = (Ok (), w)).
  { destruct Hsp as [-> | [argv Hargv]]; [done |].
    destruct shell; [done |]. by rewrite Hargv. }
  rewrite (bind_ok _ _ _ _ _ Hfirst).
  rewrite (bind_ok _ _ _ _ _ (emit_run _ _)).
  simpl. by destruct (run_popen E shell cmd (files w)).
Qed.

(** Through the shell a process is always started. *)
Lemma popen_shell_run (E : Env) (cmd : string) w :
  popen_communicate E true cmd w
  = (Ok (fst (run_popen E true cmd (files w))),
     mkWorld (snd (run_popen E true cmd (files w))) (trace w ++ [Popen true cmd])).
Proof. apply popen_communicate_run. by left. Qed.

(** A command that does not split starts no process. *)
Lemma popen_communicate_raise (E : Env) (cmd : string) (e : exn) w :
  Shlex.split cmd = Raise e →
  popen_communicate E false cmd w = (Raise e, w).
Proof.
  intros Hsplit. unfold popen_communicate. apply bind_raise. by rewrite Hsplit.
Qed.

(** The pool opens when its size is at least one, and only then. *)
Lemma pool_open_ok (n : Z) w :
  (1 ≤ n)%Z →
  pool_open n w = (Ok (), mkWorld (files w) (trace w ++ [PoolOpen n])).
Proof.
  intros Hn. unfold pool_open. apply Z.ltb_ge in Hn. by rewrite Hn.
Qed.

Lemma pool_open_refused (n : Z) w :
  (n < 1)%Z →
  pool_open n w = (Raise (ValueError "Number of processes must be at least 1"), w).
Proof.
  intros Hn. unfold pool_open. apply Z.ltb_lt in Hn. by rewrite Hn.
Qed.

Lemma pool_open_inv (n : Z) w (u : unit) w' :
  pool_open n w = (Ok u, w') →
  (1 ≤ n)%Z ∧ w' = mkWorld (files w) (trace w ++ [PoolOpen n]).
Proof.
  unfold pool_open. destruct (n <? 1)%Z eqn:Hn; [discriminate |].
  apply Z.ltb_ge in Hn. rewrite emit_run. intros H. by simplify_eq.
Qed.

Lemma os_remove_present (p : string) w :
  p ∈ files w →
  os_remove p w = (Ok (), mkWorld (files w ∖ {[p]}) (trace w ++ [OsRemove p])).
Proof.
  intros Hp. unfold os_remove. rewrite (bind_ok _ _ _ _ _ (emit_run _ _)). simpl.
  by rewrite decide_True.
Qed.

Lemma os_remove_missing (p : string) w :
  p ∉ files w →
  os_remove p w = (Raise (FileNotFoundError p), mkWorld (files w) (trace w ++ [OsRemove p])).
Proof.
  intros Hp. unfold os_remove. rewrite (bind_ok _ _ _ _ _ (emit_run _ _)). simpl.
  by rewrite decide_False.
Qed.

(** ** Computations that only add events of some kind *)

Section EmitsOnly.

Context (P : event → bool).

Lemma emits_ret {A} (a : A) : emits_only P (ret a).
Proof. intros w. exists []. by rewrite app_nil_r. Qed.

Lemma emits_raise {A} (e : exn) : emits_only P (@raise A e).
Proof. intros w. exists []. by rewrite app_nil_r. Qed.

Lemma emits_lift {A} (r : result A) : emits_only P (lift r).
Proof. intros w. exists []. by rewrite app_nil_r. Qed.

Lemma emits_emit (e : event) : P e = true → emits_only P (emit e).
Proof. intros He w. exists [e]. split; [done |]. by constructor. Qed.

Lemma emits_bind {A B} (m : M A) (k : A → M B) :
  emits_only P m → (∀ a, emits_only P (k a)) → emits_only P (bind m k).
Proof.
  intros Hm Hk w. destruct (Hm w) as (evs1 & Ht1 & HF1).
  unfold bind. destruct (m w) as [[a | e] w1]; simpl in *.
  - destruct (Hk a w1) as (evs2 & Ht2 & HF2).
    exists (evs1 ++ evs2). split; [| by apply Forall_app].
    by rewrite Ht2, Ht1, <- app_assoc.
  - by exists evs1.
Qed.

Lemma emits_subprocess_wrap (E : Env) (cmd : string) (dbg : bool) :
  P (SubprocessWrap cmd dbg) = true → emits_only P (subprocess_wrap E cmd dbg).
Proof.
  intros HP w. destruct (run_subprocess_wrap E cmd dbg (files w)) as [r fs] eqn:H.
  rewrite (subprocess_wrap_run E cmd dbg w r fs H).
  exists [SubprocessWrap cmd dbg]. split; [done |]. by constructor.
Qed.

Lemma emits_popen_communicate (E : Env) (shell : bool) (cmd : string) :
  P (Popen shell cmd) = true → emits_only P (popen_communicate E shell cmd).
Proof.
  intros HP w.
  destruct shell; [| destruct (Shlex.split cmd) as [argv | e] eqn:Hsplit].
  - rewrite popen_shell_run. exists [Popen true cmd]. split; [done |]. by constructor.
  - rewrite popen_communicate_run by (right; eauto).
    exists [Popen false cmd]. split; [done |]. by constructor.
  - rewrite (popen_communicate_raise E cmd e w Hsplit).
    exists []. by rewrite app_nil_r.
Qed.

Lemma emits_pool_open (n : Z) :
  P (PoolOpen n) = true → emits_only P (pool_open n).
Proof.
  intros HP. unfold pool_open. destruct (n <? 1)%Z; [apply emits_raise |].
  by apply emits_emit.
Qed.

Lemma emits_os_remove (p : string) :
  P (OsRemove p) = true → emits_only P (os_remove p).
Proof.
  intros HP w. exists [OsRemove p]. split; [| by constructor].
  destruct (decide (p ∈ files w)) as [Hp | Hp].
  - by rewrite os_remove_present.
  - by rewrite os_remove_missing.
Qed.

Lemma emits_for_each {A} (body : A → M unit) (l : list A) :
  (∀ x, emits_only P (body x)) → emits_only P (for_each body l).
Proof.
  intros Hbody. induction l as [|x l IH]; simpl.
  - apply emits_ret.
  - apply emits_bind; [apply Hbody | intros _; apply IH].
Qed.

End EmitsOnly.

(** ** Removing files *)

(** Removing distinct existing files removes exactly them, in order. *)
Lemma for_each_os_remove (l : list string) w :
  NoDup l →
  (∀ p, p ∈ l → p ∈ files w) →
  for_each os_remove l w
  = (Ok (), mkWorld (files w ∖ list_to_set l) (trace w ++ map OsRemove l)).
Proof.
  revert w. induction l as [|p l IH]; intros w Hnd Hin; simpl.
  - unfold ret. destruct w as [fs tr]. simpl.
    by rewrite difference_empty_L, app_nil_r.
  - apply NoDup_cons in Hnd as [Hp Hnd].
    rewrite (bind_ok _ _ _ _ _ (os_remove_present p w (Hin p (list_elem_of_here _ _)))).
    rewrite IH; [| done |].
    + simpl. by rewrite difference_difference_l_L, <- app_assoc.
    + intros q Hq. simpl. apply elem_of_difference. split.
      * apply Hin. by apply list_elem_of_further.
      * intros ->%elem_of_singleton. done.
Qed.

(** ** The worker pool *)

Section Pool.

Context (E : Env) (worker : JobParams → M (option string)).
(** what is known of the outcome of a job, whatever the world it ran in *)
Context (good : JobParams → result (option string) → Prop).
Hypothesis worker_good : ∀ prm w, good prm (fst (worker prm w)).

(** Once every job is done, each handle holds an outcome of its own
    job, whatever the order of completion. *)
Lemma pool_join_spec (fuel step : nat) (pending : list (nat * JobParams))
    (done : Handles) (w : World) :
  length pending = fuel →
  NoDup (pending.*1) →
  let r := pool_join E worker fuel step pending done w in
  (∀ h prm, (h, prm) ∈ pending → ∃ o, fst r !! h = Some o ∧ good prm o)
  ∧ (∀ h, h ∉ pending.*1 → fst r !! h = done !! h).
Proof.
  revert step pending done w.
  induction fuel as [|fuel IH]; intros step pending done w Hlen Hnd; simpl.
  - destruct pending; [| done]. split; [| done]. intros h prm H. by apply elem_of_nil in H.
  - destruct pending as [|j0 pending0]; [done |].
    set (pending := j0 :: pending0) in *.
    set (i := completes_next E step `mod` length pending).
    assert (Hi : i < length pending).
    { apply Nat.mod_upper_bound. unfold pending. simpl. lia. }
    destruct (lookup_lt_is_Some_2 pending i Hi) as [[h prm] Hlk].
    rewrite Hlk. destruct (worker prm w) as [o w'] eqn:Hw.
    pose proof (worker_good prm w) as Hgood. rewrite Hw in Hgood. simpl in Hgood.
    assert (Hsplit : pending = take i pending ++ (h, prm) :: drop (S i) pending).
    { symmetry. by apply take_drop_middle. }
    assert (Hdel : delete i pending = take i pending ++ drop (S i) pending).
    { apply delete_take_drop. }
    assert (Hnd' : NoDup ((delete i pending).*1) ∧ h ∉ (delete i pending).*1).
    { rewrite Hdel. rewrite Hsplit in Hnd.
      rewrite fmap_app, fmap_cons in Hnd. simpl in Hnd.
      apply NoDup_app in Hnd as (Hnd1 & Hnd2 & Hnd3).
      apply NoDup_cons in Hnd3 as [Hh Hnd3].
      rewrite fmap_app. split.
      - apply NoDup_app. split; [done |]. split; [| done].
        intros x Hx Hx'. apply (Hnd2 x Hx). by apply list_elem_of_further.
      - intros [Hx | Hx]%elem_of_app; [| done].
        apply (Hnd2 h Hx). apply list_elem_of_here. }
    destruct Hnd' as [Hnd' Hh].
    assert (Hlen' : length (delete i pending) = fuel).
    { rewrite length_delete by eauto. rewrite Hlen. simpl. lia. }
    destruct (IH (S step) (delete i pending) (<[h:=o]> done) w' Hlen' Hnd')
      as [IH1 IH2].
    split.
    + intros h' prm' Hin. rewrite Hsplit in Hin.
      apply elem_of_app in Hin as [Hin | Hin];
        [| apply elem_of_cons in Hin as [Hin | Hin]].
      * apply IH1. rewrite Hdel. apply elem_of_app. by left.
      * simplify_eq. exists o. split; [| done].
        rewrite IH2 by done. apply lookup_insert_eq.
      * apply IH1. rewrite Hdel. apply elem_of_app. by right.
    + intros h' Hh'. rewrite IH2.
      * apply lookup_insert_ne. intros ->. apply Hh'.
        apply list_elem_of_fmap. exists (h', prm). split; [done |].
        by eapply list_elem_of_lookup_2.
      * intros Hx. apply Hh'. rewrite Hdel in Hx. rewrite Hsplit.
        rewrite fmap_app in Hx. rewrite fmap_app, fmap_cons.
        apply elem_of_app in Hx as [Hx | Hx]; apply elem_of_app; [by left | right].
        by apply list_elem_of_further.
Qed.

End Pool.

(** [get_all] returns the values the handles hold, in the order of the
    handles, and leaves the world alone. *)
Lemma get_all_ok (done : Handles) (hs : list nat) w res w' :
  get_all done hs w = (Ok res, w') →
  w' = w ∧ Forall2 (λ h r, done !! h = Some (Ok r)) hs res.
Proof.
  revert res. induction hs as [|h hs IH]; intros res H; simpl in H.
  - unfold ret in H. simplify_eq. split; [done | constructor].
  - inv_bind H as r wr Hr. inv_bind H as rs ws Hs. unfold ret in H. simplify_eq.
    unfold get, lift, raise in Hr.
    destruct (done !! h) as [[v | e] |] eqn:Hh; simplify_eq.
    destruct (IH _ Hs) as [-> HF]. split; [done |]. by constructor.
Qed.

(** The jobs of the pool only add the events the worker adds. *)
Lemma pool_join_emits (P : event → bool) (E : Env)
    (worker : JobParams → M (option string)) :
  (∀ p, emits_only P (worker p)) →
  ∀ fuel step pending done w,
    ∃ evs, trace (snd (pool_join E worker fuel step pending done w)) = trace w ++ evs
           ∧ Forall (λ e, P e = true) evs.
Proof.
  intros Hworker. induction fuel as [|fuel IH]; intros step pending done w; simpl.
  - exists []. by rewrite app_nil_r.
  - destruct (pending !! _) as [[h prm] |]; [| exists []; by rewrite app_nil_r].
    destruct (Hworker prm w) as (evs1 & Ht1 & HF1).
    destruct (worker prm w) as [o w']. simpl in Ht1.
    destruct (IH (S step) (delete (completes_next E step `mod` length pending) pending)
                 (<[h:=o]> done) w') as (evs2 & Ht2 & HF2).
    exists (evs1 ++ evs2). split; [| by apply Forall_app].
    by rewrite Ht2, Ht1, <- app_assoc.
Qed.

Lemma pool_close_join_emits (P : event → bool) (E : Env)
    (worker : JobParams → M (option string)) (jobs : list (nat * JobParams)) :
  P PoolJoin = true →
  (∀ p, emits_only P (worker p)) →
  emits_only P (pool_close_join E worker jobs).
Proof.
  intros HP Hworker. unfold pool_close_join.
  apply emits_bind; [by apply emits_emit |]. intros _ w.
  destruct (pool_join_emits P E worker Hworker (length jobs) 0 jobs ∅ w) as (evs & Ht & HF).
  exists evs. split; [| done]. by destruct (pool_join E worker _ _ _ _ w).
Qed.

Lemma get_all_emits (P : event → bool) (done : Handles) (hs : list nat) :
  emits_only P (get_all done hs).
Proof.
  induction hs as [|h hs IH]; simpl; [apply emits_ret |].
  apply emits_bind.
  - unfold get. destruct (done !! h); [apply emits_lift | apply emits_raise].
  - intros r. apply emits_bind; [apply IH | intros rs; apply emits_ret].
Qed.

(** ** The results of a run *)

Lemma submit_all_run (E : Env) (self : BamMethylData) (name header_path : string)
    (h : nat) (regions : list string) w :
  submit_all E self name header_path h regions w
  = (Ok (jobs_of E self name header_path h regions),
     mkWorld (files w) (trace w ++ submit_events h regions)).
Proof.
  revert h w. induction regions as [|c cs IH]; intros h w; simpl.
  - unfold ret. destruct w. simpl. by rewrite app_nil_r.
  - rewrite (bind_ok _ _ _ _ _ (emit_run _ _)).
    rewrite (bind_ok _ _ _ _ _ (IH _ _)). unfold ret. simpl.
    by rewrite <- app_assoc.
Qed.

Lemma jobs_of_handles (E : Env) (self : BamMethylData) (name header_path : string)
    (h : nat) (regions : list string) :
  (jobs_of E self name header_path h regions).*1 = seq h (length regions).
Proof.
  revert h. induction regions as [|c cs IH]; intros h; simpl; [done |]. by rewrite IH.
Qed.

Lemma jobs_of_paths (E : Env) (self : BamMethylData) (name header_path : string)
    (h : nat) (regions : list string) :
  map (λ j, Some (out_path (out_path_name j.2))) (jobs_of E self name header_path h regions)
  = map (λ c, Some (region_out_path name c)) regions.
Proof.
  revert h. induction regions as [|c cs IH]; intros h; simpl; [done |]. by rewrite IH.
Qed.

Lemma proc_chr_ok (E : Env) (p : JobParams) w r w' :
  proc_chr E p w = (Ok r, w') → r = out_path (out_path_name p).
Proof.
  unfold proc_chr. intros H.
  inv_bind H as u1 w1 H1. inv_bind H as u2 w2 H2. inv_bind H as u3 w3 H3.
  unfold ret in H. by simplify_eq.
Qed.

Lemma proc_chr_job_ok (E : Env) (p : JobParams) w v w' :
  proc_chr_job E p w = (Ok v, w') → v = Some (out_path (out_path_name p)).
Proof.
  unfold proc_chr_job. intros H. inv_bind H as r wr Hr. unfold ret in H. simplify_eq.
  f_equal. by eapply proc_chr_ok.
Qed.

Lemma proc_chr_job_good (E : Env) (prm : JobParams) w :
  returns_own_path prm (fst (proc_chr_job E prm w)).
Proof.
  intros v Hv. destruct (proc_chr_job E prm w) as [o w'] eqn:H. simpl in Hv. subst o.
  by eapply proc_chr_job_ok.
Qed.

Lemma results_in_job_order (jobs : list (nat * JobParams)) (done : Handles)
    (res : list (option string)) :
  (∀ h prm, (h, prm) ∈ jobs → ∃ o, done !! h = Some o ∧ returns_own_path prm o) →
  Forall2 (λ h r, done !! h = Some (Ok r)) (jobs.*1) res →
  res = map (λ j, Some (out_path (out_path_name j.2))) jobs.
Proof.
  revert res. induction jobs as [|[h prm] jobs IH]; intros res Hdone HF; simpl in *.
  - by apply Forall2_nil_inv_l in HF.
  - apply Forall2_cons_inv_l in HF as (r & res' & Hr & HF & ->).
    f_equal.
    + destruct (Hdone h prm (list_elem_of_here _ _)) as (o & Ho & Hgood).
      rewrite Hr in Ho. simplify_eq. by apply Hgood.
    + apply IH; [| done]. intros h' prm' Hin. apply Hdone. by apply list_elem_of_further.
Qed.

(** What [res] and [final_path] are when the results of the jobs could be
    collected, whatever the order in which the jobs completed. *)
Lemma gather_results_ok (E : Env) (self : BamMethylData) w final_path res w1 :
  gather_results E (proc_chr_job E) self w = (Ok (final_path, res), w1) →
  let args := self_args self in
  let name := run_name self in
  ∃ hp wh, extract_header E self w = (Ok hp, wh) ∧
  match region_str (self_gr self) with
  | None =>
      final_path = name +:+ "." +:+ suffix args +:+ BAM_SUFF
      ∧ ∃ regions wr,
          set_regions E self (at_resolver self wh) = (Ok regions, wr)
          ∧ regions ≠ []
          ∧ res = map (λ c, Some (region_out_path name c)) regions
  | Some r =>
      final_path = name +:+ "." +:+ Str.replace "-" "_" (Str.replace ":" "_" r)
                   +:+ "." +:+ suffix args +:+ BAM_SUFF
      ∧ res = [Some (region_out_path name "1")]
  end.
Proof.
  intros H. cbv zeta. unfold gather_results in H. inv_bind H as hp wh Hh.
  exists hp, wh. split; [done |].
  unfold collect_results in H. destruct (region_str (self_gr self)) as [r |].
  - inv_bind H as r1 wj Hj. unfold ret in H. simplify_eq. split; [done |].
    apply proc_chr_job_ok in Hj. by subst.
  - inv_bind H as u0 wp Hp. apply pool_open_inv in Hp as [_ ->]. clear u0.
    fold (at_resolver self wh) in H.
    inv_bind H as regions wr Hr. inv_bind H as jobs ws Hs.
    rewrite submit_all_run in Hs. simplify_eq.
    remember (jobs_of E self (run_name self) (header_path_of self) 0 regions)
      as jobs eqn:Hjobs.
    destruct jobs as [|j jobs]; [discriminate |].
    inv_bind H as done wd Hd. inv_bind H as rs wg Hg. unfold ret in H. simplify_eq.
    split; [done |]. exists regions, wr. split; [done |].
    split; [intros ->; discriminate |].
    apply get_all_ok in Hg as [_ HF].
    unfold pool_close_join in Hd. inv_bind Hd as u wj Hj. clear Hj.
    match type of Hd with context [pool_join ?E ?wk ?f ?s ?p ?d ?w] =>
      pose proof (pool_join_spec E wk returns_own_path (proc_chr_job_good E) f s p d w eq_refl)
        as Hspec; destruct (pool_join E wk f s p d w) as [done' w'] eqn:Hpj end.
    simplify_eq. rewrite Hjobs in *.
    destruct Hspec as [Hspec _].
    { rewrite jobs_of_handles. apply NoDup_seq. }
    rewrite <- jobs_of_paths with (E := E) (self := self)
      (header_path := header_path_of self) (h := 0).
    by apply results_in_job_order with (done := done).
Qed.

(** ** Sorting by a key *)

Section SortedBy.

Context (key : string → Z).

Lemma insert_by_perm (x : string) (l : list string) : insert_by key x l ≡ₚ x :: l.
Proof.
  induction l as [|y l IH]; simpl; [done |].
  destruct (key x <=? key y)%Z; [done |].
  rewrite IH. apply Permutation_swap.
Qed.

Lemma sorted_by_perm (l : list string) : sorted_by key l ≡ₚ l.
Proof.
  induction l as [|x l IH]; simpl; [done |]. by rewrite insert_by_perm, IH.
Qed.








End SortedBy.

(** ** The resolver *)

Lemma intersect_chroms_NoDup (E : Env) (a b : list string) : NoDup (intersect_chroms E a b).
Proof.
  unfold intersect_chroms. rewrite set_order_perm. apply NoDup_remove_dups.
Qed.

Lemma elem_of_intersect_chroms (E : Env) (a b : list string) (c : string) :
  c ∈ intersect_chroms E a b ↔ c ∈ a ∧ c ∈ b.
Proof.
  unfold intersect_chroms. rewrite set_order_perm, elem_of_remove_dups.
  apply list_elem_of_intersection.
Qed.

(** With an explicit region the resolver does nothing but return it. *)
Lemma set_regions_explicit (E : Env) (self : BamMethylData) (r : string) w :
  region_str (self_gr self) = Some r → r ≠ "" →
  set_regions E self w = (Ok [r], w).
Proof.
  intros Hr Hne. unfold set_regions. rewrite Hr. simpl.
  apply String.eqb_neq in Hne. by rewrite Hne.
Qed.

(** The contig listing succeeded and some contig is known to the genome. *)
Lemma set_regions_found (E : Env) (self : BamMethylData) w out err fs' :
  truthy (region_str (self_gr self)) = false →
  run_popen E true (idxstats_cmd (self_bam_path self)) (files w) = ((0%Z, out, err), fs') →
  out ≠ "" →
  intersect_chroms E (parse_chroms out) (get_chroms (genome (self_gr self))) ≠ [] →
  set_regions E self w
  = (Ok (sorted_by (chromosome_order E)
           (intersect_chroms E (parse_chroms out) (get_chroms (genome (self_gr self))))),
     mkWorld fs' (trace w ++ [Popen true (idxstats_cmd (self_bam_path self))])).
Proof.
  intros Ht Hp Hout Hne. unfold set_regions. rewrite Ht.
  unfold popen_communicate, bind. simpl. rewrite Hp. simpl.
  apply String.eqb_neq in Hout. rewrite Hout. simpl.
  destruct (intersect_chroms _ _ _); [done |]. reflexivity.
Qed.

(** The contig listing succeeded and no contig is known to the genome. *)
Lemma set_regions_none_found (E : Env) (self : BamMethylData) w out err fs' :
  truthy (region_str (self_gr self)) = false →
  run_popen E true (idxstats_cmd (self_bam_path self)) (files w) = ((0%Z, out, err), fs') →
  out ≠ "" →
  (∀ c, c ∈ parse_chroms out → c ∉ get_chroms (genome (self_gr self))) →
  set_regions E self w
  = (Raise (IllegalArgumentError "Failed"),
     mkWorld fs' (trace w ++ [Popen true (idxstats_cmd (self_bam_path self));
                              Eprint no_chroms_msg])).
Proof.
  intros Ht Hp Hout Hnone. unfold set_regions. rewrite Ht.
  unfold popen_communicate, bind. simpl. rewrite Hp. simpl.
  apply String.eqb_neq in Hout. rewrite Hout. simpl.
  destruct (intersect_chroms _ _ _) as [|c l] eqn:Hi.
  - unfold raise. simpl. by rewrite <- app_assoc.
  - exfalso. assert (Hc : c ∈ c :: l) by apply list_elem_of_here.
    rewrite <- Hi in Hc. apply elem_of_intersect_chroms in Hc as [Hc1 Hc2].
    by apply (Hnone c).
Qed.

(** Whatever the resolver returns without an explicit region has no
    duplicates. *)
Lemma set_regions_NoDup (E : Env) (self : BamMethylData) w regions w' :
  truthy (region_str (self_gr self)) = false →
  set_regions E self w = (Ok regions, w') →
  NoDup regions.
Proof.
  intros Ht H. unfold set_regions in H. rewrite Ht in H.
  inv_bind H as p wp Hp. destruct p as [[rc out] err].
  destruct (negb (rc =? 0)%Z || String.eqb out "").
  - inv_bind H as u1 w1 H1. inv_bind H as u2 w2 H2. inv_bind H as u3 w3 H3.
    unfold ret in H. simplify_eq. constructor.
  - destruct (intersect_chroms _ _ _) as [|c l] eqn:Hi.
    + inv_bind H as u1 w1 H1. discriminate.
    + unfold ret in H.
      assert (regions = sorted_by (chromosome_order E) (c :: l)) as -> by congruence.
      rewrite sorted_by_perm, <- Hi. apply intersect_chroms_NoDup.
Qed.

(** The resolver spawns the contig listing, prints, and does nothing else. *)
Lemma set_regions_emits (P : event → bool) (E : Env) (self : BamMethylData) :
  (∀ cmd, P (Popen true cmd) = true) →
  (∀ msg, P (Eprint msg) = true) →
  emits_only P (set_regions E self).
Proof.
  intros HP1 HP2. unfold set_regions.
  destruct (truthy _); [apply emits_ret |].
  apply emits_bind; [by apply emits_popen_communicate |].
  intros [[rc out] err].
  destruct (negb (rc =? 0)%Z || String.eqb out "").
  - repeat (apply emits_bind; [by apply emits_emit | intros _]). apply emits_ret.
  - destruct (intersect_chroms _ _ _); [| apply emits_ret].
    apply emits_bind; [by apply emits_emit | intros _; apply emits_raise].
Qed.

(** ** C4: the order of the resolved contigs *)




(** ** The phases of a run *)

Lemma extract_header_ok (E : Env) (self : BamMethylData) w fs1 :
  run_subprocess_wrap E (header_cmd self) (self_debug self) (files w) = (Ok (), fs1) →
  extract_header E self w
  = (Ok (header_path_of self),
     mkWorld fs1 (trace w ++ [Print ": *** starting processing of each chromosome";
                              SubprocessWrap (header_cmd self) (self_debug self)])).
Proof.
  intros H. unfold extract_header, proc_header.
  rewrite (bind_ok _ _ _ _ _ (emit_run _ _)).
  erewrite bind_ok; [| apply subprocess_wrap_run; exact H].
  unfold ret. simpl. by rewrite <- app_assoc.
Qed.

Lemma merge_and_index_run (E : Env) (header_path final_path : string)
    (res : list (option string)) w :
  spawnable false (merge_cmd header_path final_path (paths_of res)) →
  spawnable false (index_cmd final_path) →
  merge_and_index E header_path final_path res w
  = (Ok (), mkWorld (files_after_merge_index E header_path final_path (paths_of res) (files w))
                    (trace w ++ merge_index_events header_path final_path (paths_of res))).
Proof.
  intros Hm Hi. unfold merge_and_index.
  rewrite (bind_ok _ _ _ _ _ (emit_run _ _)).
  rewrite (bind_ok _ _ _ _ _ (emit_run _ _)).
  rewrite (bind_ok _ _ _ _ _ (popen_communicate_run _ _ _ _ Hm)).
  rewrite (bind_ok _ _ _ _ _ (emit_run _ _)).
  rewrite (bind_ok _ _ _ _ _ (emit_run _ _)).
  rewrite (bind_ok _ _ _ _ _ (popen_communicate_run _ _ _ _ Hi)).
  rewrite emit_run. simpl. unfold files_after_merge_index, merge_index_events.
  by rewrite <- !app_assoc.
Qed.

(** A merge command that does not split ends the phase with the error
    of [shlex.split], before any process is started. *)
Lemma merge_and_index_unsplit (E : Env) (header_path final_path : string)
    (res : list (option string)) (e : exn) w :
  Shlex.split (merge_cmd header_path final_path (paths_of res)) = Raise e →
  merge_and_index E header_path final_path res w
  = (Raise e, mkWorld (files w)
                      (trace w ++ [Print ": finished processing each chromosome";
                                   Print ": starting cat of files"])).
Proof.
  intros Hm. unfold merge_and_index.
  rewrite (bind_ok _ _ _ _ _ (emit_run _ _)).
  rewrite (bind_ok _ _ _ _ _ (emit_run _ _)).
  rewrite (bind_raise _ _ _ _ _ (popen_communicate_raise _ _ _ _ Hm)).
  simpl. by rewrite <- app_assoc.
Qed.

Lemma paths_of_map (f : string → string) (l : list string) :
  paths_of (map (λ c, Some (f c)) l) = map f l.
Proof. induction l as [|c l IH]; simpl; [done |]. unfold paths_of in *. simpl. by rewrite IH. Qed.

Lemma None_not_in_map (f : string → string) (l : list string) :
  None ∉ map (λ c, Some (f c)) l.
Proof. intros (c & Hc & _)%list_elem_of_fmap. discriminate. Qed.

(** Once the results are in and none is [None], the run is the merge,
    the index and the removal of the small files. *)
Lemma merge_and_cleanup_run (E : Env) (header_path final_path : string)
    (res : list (option string)) w :
  None ∉ res →
  spawnable false (merge_cmd header_path final_path (paths_of res)) →
  spawnable false (index_cmd final_path) →
  merge_and_cleanup E header_path final_path res w
  = remove_small_files (paths_of res) header_path
      (mkWorld (files_after_merge_index E header_path final_path (paths_of res) (files w))
               (trace w ++ (Print "finished adding CpG counts"
                            :: merge_index_events header_path final_path (paths_of res)))).
Proof.
  intros Hres Hm Hi. unfold merge_and_cleanup.
  rewrite (bind_ok _ _ _ _ _ (emit_run _ _)).
  rewrite bool_decide_false by done.
  rewrite (bind_ok _ _ _ _ _ (merge_and_index_run _ _ _ _ _ Hm Hi)). simpl.
  by rewrite <- app_assoc.
Qed.

(** The removal records one [os.remove] per path, up to the first path
    that is missing. *)
Lemma for_each_os_remove_trace (l : list string) w :
  ∃ k, trace (snd (for_each os_remove l w)) = trace w ++ map OsRemove (take k l).
Proof.
  revert w. induction l as [|p l IH]; intros w; simpl.
  - exists 0. by rewrite app_nil_r.
  - destruct (decide (p ∈ files w)) as [Hp | Hp].
    + rewrite (bind_ok _ _ _ _ _ (os_remove_present p w Hp)).
      destruct (IH (mkWorld (files w ∖ {[p]}) (trace w ++ [OsRemove p]))) as [k Hk].
      exists (S k). rewrite Hk. simpl. by rewrite <- app_assoc.
    + rewrite (bind_raise _ _ _ _ _ (os_remove_missing p w Hp)).
      by exists 1.
Qed.

(** The results of a run of [proc_chr] jobs never hold [None]. *)
Lemma gather_results_no_None (E : Env) (self : BamMethylData) w final_path res w1 :
  gather_results E (proc_chr_job E) self w = (Ok (final_path, res), w1) →
  None ∉ res.
Proof.
  intros H. apply gather_results_ok in H as (hp & wh & _ & H).
  destruct (region_str (self_gr self)).
  - destruct H as [_ ->]. intros [H | H]%elem_of_cons; [done | by apply elem_of_nil in H].
  - destruct H as (_ & regions & wr & _ & _ & ->). apply None_not_in_map.
Qed.

Lemma proc_chr_emits (P : event → bool) (E : Env) (p : JobParams) :
  (∀ cmd dbg, P (SubprocessWrap cmd dbg) = true) →
  (∀ f, P (OsRemove f) = true) →
  emits_only P (proc_chr E p).
Proof.
  intros HP1 HP2. unfold proc_chr.
  apply emits_bind; [by apply emits_subprocess_wrap | intros _].
  apply emits_bind; [by apply emits_subprocess_wrap | intros _].
  apply emits_bind; [by apply emits_os_remove | intros _; apply emits_ret].
Qed.

Lemma extract_header_emits (P : event → bool) (E : Env) (self : BamMethylData) :
  (∀ msg, P (Print msg) = true) →
  (∀ cmd dbg, P (SubprocessWrap cmd dbg) = true) →
  emits_only P (extract_header E self).
Proof.
  intros HP1 HP2. unfold extract_header, proc_header.
  apply emits_bind; [by apply emits_emit | intros _].
  apply emits_bind; [by apply emits_subprocess_wrap | intros _; apply emits_ret].
Qed.

Lemma merge_and_cleanup_emits (P : event → bool) (E : Env)
    (header_path final_path : string) (res : list (option string)) :
  (∀ msg, P (Print msg) = true) →
  (∀ cmd, P (Popen false cmd) = true) →
  (∀ f, P (OsRemove f) = true) →
  emits_only P (merge_and_cleanup E header_path final_path res).
Proof.
  intros HP1 HP2 HP3. unfold merge_and_cleanup, merge_and_index, remove_small_files.
  apply emits_bind; [by apply emits_emit | intros _].
  destruct (bool_decide (None ∈ res)).
  - apply emits_bind; [by apply emits_emit | intros _; apply emits_ret].
  - apply emits_bind; [| intros _; apply emits_for_each; intros f; by apply emits_os_remove].
    apply emits_bind; [by apply emits_emit | intros _].
    apply emits_bind; [by apply emits_emit | intros _].
    apply emits_bind; [by apply emits_popen_communicate | intros _].
    apply emits_bind; [by apply emits_emit | intros _].
    apply emits_bind; [by apply emits_emit | intros _].
    apply emits_bind; [by apply emits_popen_communicate | intros _].
    by apply emits_emit.
Qed.

(** Up to the collection of the results a run starts no merge and no
    index, unless the worker does. *)
Lemma gather_results_no_direct_spawn (E : Env) (worker : JobParams → M (option string))
    (self : BamMethylData) :
  (∀ p, emits_only no_direct_spawn (worker p)) →
  emits_only no_direct_spawn (gather_results E worker self).
Proof.
  intros Hworker. unfold gather_results.
  apply emits_bind; [by apply extract_header_emits | intros _].
  unfold collect_results. destruct (region_str (self_gr self)) as [r |].
  - apply emits_bind; [apply Hworker | intros r1; apply emits_ret].
  - apply emits_bind; [by apply emits_pool_open | intros _].
    apply emits_bind; [by apply set_regions_emits | intros regions].
    apply emits_bind.
    { intros w. rewrite submit_all_run. simpl. eexists. split; [reflexivity |].
      generalize 0. induction regions as [|c cs IH]; intros h; simpl; by constructor. }
    intros [|j jobs]; [apply emits_raise |].
    apply emits_bind; [by apply pool_close_join_emits | intros done].
    apply emits_bind; [apply get_all_emits | intros rs; apply emits_ret].
Qed.

(** ** C3: the order of the merged files *)

Lemma region_out_path_word (name c : string) :
  Shlex.plain name = true → Shlex.plain c = true →
  Shlex.word (region_out_path name c) = true.
Proof.
  intros Hn Hc. unfold region_out_path, out_path, region_out_path_name.
  apply word_app_r; [| done]. by rewrite !plain_app, Hn, Hc.
Qed.

Lemma header_path_word (self : BamMethylData) :
  Shlex.plain (run_name self) = true → Shlex.word (header_path_of self) = true.
Proof. intros Hn. unfold header_path_of. by apply word_app_r. Qed.

Lemma concat_map_singletons {A B} (f : B → list A) (g : A → B) (l : list A) :
  (∀ c, c ∈ l → f (g c) = [c]) → concat (map f (map g l)) = l.
Proof.
  induction l as [|c l IH]; intros H; simpl; [done |].
  rewrite H by apply list_elem_of_here. simpl. f_equal.
  apply IH. intros c' Hc'. apply H. by apply list_elem_of_further.
Qed.

(** C3.  In a run over the resolved regions of the alignment file whose
    names hold no blank, quotation mark or backslash, with any order of
    job completion: the results are the per-region files in the order in
    which the resolver returned the regions; the merge command that the
    run spawns splits into [samtools merge -c -p -f -h], the header, the
    final path and these files in that order; and, each per-region file
    holding the records of its region, the contigs of the merged file
    come in the order of the resolver. *)
Theorem merge_paths_in_resolver_order (E : Env) (sched : nat → nat)
    (self : BamMethylData) (w : World) (regions : list string)
    (final_path : string) (res : list (option string)) (w1 : World)
    (contigs_of : string → list string) :
  region_str (self_gr self) = None →
  Shlex.plain (run_name self) = true →
  Shlex.plain (suffix (self_args self)) = true →
  Forall (λ c, Shlex.plain c = true) regions →
  fst (set_regions E self (at_resolver self (snd (extract_header E self w)))) = Ok regions →
  gather_results (with_schedule E sched) (proc_chr_job (with_schedule E sched)) self w
  = (Ok (final_path, res), w1) →
  (∀ c, c ∈ regions → contigs_of (region_out_path (run_name self) c) = [c]) →
  let paths := map (region_out_path (run_name self)) regions in
  let argv := ["samtools"; "merge"; "-c"; "-p"; "-f"; "-h"; header_path_of self; final_path]
              ++ paths in
  res = map Some paths
  ∧ Shlex.split (merge_cmd (header_path_of self) final_path paths) = Ok argv
  ∧ merged_contigs contigs_of argv = regions
  ∧ ∃ removed,
      trace (snd (start_threads (with_schedule E sched) self w))
      = trace w1
        ++ (Print "finished adding CpG counts"
            :: merge_index_events (header_path_of self) final_path paths)
        ++ map OsRemove removed.
Proof.
  intros Hnone Hname Hsuffix Hplain Hset Hres Hcontigs paths argv.
  pose proof (gather_results_no_None _ _ _ _ _ _ Hres) as Hnn.
  pose proof Hres as Hok. apply gather_results_ok in Hok as (hp & wh & Hh & Hok).
  rewrite Hnone in Hok. destruct Hok as (Hfinal & regions' & wr & Hr & _ & Hmap).
  change (extract_header E self w = (Ok hp, wh)) in Hh.
  change (set_regions E self (at_resolver self wh) = (Ok regions', wr)) in Hr.
  rewrite Hh in Hset. simpl in Hset. rewrite Hr in Hset. simpl in Hset.
  injection Hset as ->.
  assert (Hres' : res = map Some paths).
  { rewrite Hmap. unfold paths. by rewrite map_map. }
  assert (Hpaths : paths_of res = paths).
  { rewrite Hmap. apply paths_of_map. }
  assert (Hsplit : Shlex.split (merge_cmd (header_path_of self) final_path paths) = Ok argv).
  { apply merge_cmd_split.
    - by apply header_path_word.
    - rewrite Hfinal. apply word_app_r; [done |].
      apply word_app_l; [done |]. by rewrite plain_app, Hsuffix.
    - unfold paths. apply Forall_fmap. eapply Forall_impl; [exact Hplain |].
      intros c Hc. by apply region_out_path_word. }
  split; [done |]. split; [done |]. split.
  { unfold merged_contigs, argv. simpl. by apply concat_map_singletons. }
  unfold start_threads, start_threads_with.
  rewrite (bind_ok _ _ _ _ _ Hres). simpl.
  rewrite merge_and_cleanup_run; [| done | |].
  - unfold remove_small_files.
    match goal with |- context [for_each os_remove ?l ?w0] =>
      destruct (for_each_os_remove_trace l w0) as [k Hk] end.
    eexists. rewrite Hk. simpl. rewrite Hpaths. by rewrite <- !app_assoc.
  - right. exists argv. by rewrite Hpaths.
  - right. eexists. apply index_cmd_split.
    rewrite Hfinal. apply word_app_r; [done |].
    apply word_app_l; [done |]. by rewrite plain_app, Hsuffix.
Qed.

Lemma merge_paths_in_resolver_order_witness :
  let E := with_schedule Sample.env (λ n, 2 - n) in
  let w1 := snd (gather_results E (proc_chr_job E) Sample.self Sample.w0) in
  [Some "/out/s1_chr1.output.bam"; Some "/out/s1_chr2.output.bam";
   Some "/out/s1_chr10.output.bam"]
  = map Some ["/out/s1_chr1.output.bam"; "/out/s1_chr2.output.bam";
              "/out/s1_chr10.output.bam"]
  ∧ Shlex.split
      ("samtools merge -c -p -f -h /out/s1.header /out/s1.counts.bam "
       +:+ "/out/s1_chr1.output.bam /out/s1_chr2.output.bam /out/s1_chr10.output.bam")
    = Ok ["samtools"; "merge"; "-c"; "-p"; "-f"; "-h"; "/out/s1.header";
          "/out/s1.counts.bam"; "/out/s1_chr1.output.bam"; "/out/s1_chr2.output.bam";
          "/out/s1_chr10.output.bam"]
  ∧ merged_contigs Cases.contigs_of
      ["samtools"; "merge"; "-c"; "-p"; "-f"; "-h"; "/out/s1.header";
       "/out/s1.counts.bam"; "/out/s1_chr1.output.bam"; "/out/s1_chr2.output.bam";
       "/out/s1_chr10.output.bam"]
    = ["chr1"; "chr2"; "chr10"]
  ∧ ∃ removed,
      trace (snd (start_threads E Sample.self Sample.w0))
      = trace w1
        ++ (Print "finished adding CpG counts"
            :: merge_index_events "/out/s1.header" "/out/s1.counts.bam"
                 ["/out/s1_chr1.output.bam"; "/out/s1_chr2.output.bam";
                  "/out/s1_chr10.output.bam"])
        ++ map OsRemove removed.
Proof.
  cbv zeta.
  apply (merge_paths_in_resolver_order Sample.env (λ n, 2 - n) Sample.self Sample.w0
           ["chr1"; "chr2"; "chr10"] "/out/s1.counts.bam"
           [Some "/out/s1_chr1.output.bam"; Some "/out/s1_chr2.output.bam";
            Some "/out/s1_chr10.output.bam"]
           (snd (gather_results (with_schedule Sample.env (λ n, 2 - n))
                   (proc_chr_job (with_schedule Sample.env (λ n, 2 - n)))
                   Sample.self Sample.w0))
           Cases.contigs_of).
  - reflexivity.
  - reflexivity.
  - reflexivity.
  - repeat constructor.
  - vm_compute. reflexivity.
  - vm_compute. reflexivity.
  - intros c Hc.
    repeat (apply elem_of_cons in Hc as [-> | Hc]; [reflexivity |]).
    by apply elem_of_nil in Hc.
Defined.

(** In that run the jobs complete in the order [chr10], [chr2], [chr1],
    the reverse of the order of submission, as the removals of the
    unsorted files show. *)
Example sample_jobs_complete_in_reverse :
  let E := with_schedule Sample.env (λ n, 2 - n) in
  omap (λ e, match e with OsRemove f => Some f | _ => None end)
       (trace (snd (gather_results E (proc_chr_job E) Sample.self Sample.w0)))
  = ["/out/s1_chr10_unsorted.output.bam";
     "/out/s1_chr2_unsorted.output.bam";
     "/out/s1_chr1_unsorted.output.bam"].
Proof. vm_compute. reflexivity. Qed.

(** ** C1: a failed job stops the run before the merge *)

(** The sample job that yields [None] starts no merge and no index. *)
Lemma flaky_job_no_direct_spawn (p : JobParams) :
  emits_only no_direct_spawn (Sample.flaky_job p).
Proof.
  unfold Sample.flaky_job. destruct (String.eqb _ _); [apply emits_ret |].
  unfold proc_chr_job. apply emits_bind; [by apply proc_chr_emits | intros r; apply emits_ret].
Qed.

(** C1.  When the collected result list holds [None], the run ends
    normally right after the two messages [finished adding CpG counts]
    and [threads failed]: from the world in which the results were
    collected nothing else happens, no file is removed, the file system
    is untouched; and, the jobs starting no merge or index themselves,
    none was started before either. *)
Theorem failed_job_skips_merge (E : Env) (worker : JobParams → M (option string))
    (self : BamMethylData) (w : World)
    (final_path : string) (res : list (option string)) (w1 : World) :
  (∀ p, emits_only no_direct_spawn (worker p)) →
  gather_results E worker self w = (Ok (final_path, res), w1) →
  None ∈ res →
  start_threads_with E worker self w
  = (Ok (), mkWorld (files w1)
                    (trace w1 ++ [Print "finished adding CpG counts";
                                  Print "threads failed"]))
  ∧ ∃ evs, trace w1 = trace w ++ evs
           ∧ Forall (λ e, direct_spawn e = false) evs.
Proof.
  intros Hworker Hres Hnone. split.
  - unfold start_threads_with.
    rewrite (bind_ok _ _ _ _ _ Hres). simpl.
    unfold merge_and_cleanup. rewrite (bind_ok _ _ _ _ _ (emit_run _ _)).
    rewrite bool_decide_true by done.
    rewrite (bind_ok _ _ _ _ _ (emit_run _ _)). unfold ret. simpl.
    by rewrite <- app_assoc.
  - destruct (gather_results_no_direct_spawn E worker self Hworker w) as (evs & Ht & HF).
    rewrite Hres in Ht. exists evs. split; [done |].
    eapply Forall_impl; [exact HF |]. intros e He. by apply negb_true_iff in He.
Qed.

Lemma failed_job_skips_merge_witness :
  let res := [Some "/out/s1_chr1.output.bam"; None; Some "/out/s1_chr10.output.bam"] in
  let w1 := snd (gather_results Sample.env Sample.flaky_job Sample.self Sample.w0) in
  start_threads_with Sample.env Sample.flaky_job Sample.self Sample.w0
  = (Ok (), mkWorld (files w1)
                    (trace w1 ++ [Print "finished adding CpG counts";
                                  Print "threads failed"]))
  ∧ ∃ evs, trace w1 = trace Sample.w0 ++ evs
           ∧ Forall (λ e, direct_spawn e = false) evs.
Proof.
  cbv zeta.
  apply (failed_job_skips_merge Sample.env Sample.flaky_job Sample.self Sample.w0
           "/out/s1.counts.bam"
           [Some "/out/s1_chr1.output.bam"; None; Some "/out/s1_chr10.output.bam"]).
  - apply flaky_job_no_direct_spawn.
  - vm_compute. reflexivity.
  - set_solver.
Defined.

(** ** C2: the return codes of the merge and of the index *)

(** C2 (the code departs from it).  A run whose merge and index both
    return 1 and write nothing: the index is still started after the
    failed merge, the three per-region files and the header are still
    removed, and the run ends normally with no output file at all. *)
Theorem failed_merge_is_not_fatal :
  let r := start_threads Sample.env_merge_fails Sample.self Sample.w0 in
  fst r = Ok ()
  ∧ files (snd r) = {["/data/s1.bam"]}
  ∧ drop 18 (trace (snd r))
    = [Print ": finished processing each chromosome";
       Print ": starting cat of files";
       Popen false ("samtools merge -c -p -f -h /out/s1.header /out/s1.counts.bam "
                    +:+ "/out/s1_chr1.output.bam /out/s1_chr2.output.bam "
                    +:+ "/out/s1_chr10.output.bam");
       Print ": finished cat of files";
       Print "starting index of output bam ";
       Popen false "samtools index /out/s1.counts.bam";
       Print ": finished index of output bam";
       OsRemove "/out/s1_chr1.output.bam";
       OsRemove "/out/s1_chr2.output.bam";
       OsRemove "/out/s1_chr10.output.bam";
       OsRemove "/out/s1.header"].
Proof. cbv zeta. repeat split; vm_compute; reflexivity. Qed.

(** ** C9: what the clean-up removes *)

Lemma ends_with_app (c : ascii) (s t : string) :
  t ≠ "" → Str.ends_with c (s +:+ t) = Str.ends_with c t.
Proof.
  intros Ht. induction s as [|a s IH]; [done |].
  rewrite str_app_cons. simpl. rewrite IH.
  destruct (s +:+ t) eqn:Hst; [| done]. by apply str_app_empty in Hst.
Qed.

Lemma region_out_path_inj (name : string) : Inj (=) (=) (region_out_path name).
Proof. intros c1 c2 H. by apply out_path_inj, region_out_path_name_inj in H. Qed.

Lemma region_out_path_ends (name c : string) :
  Str.ends_with "m" (region_out_path name c) = true.
Proof. unfold region_out_path, out_path. by rewrite ends_with_app. Qed.

Lemma header_path_ends (c : ascii) (self : BamMethylData) :
  Str.ends_with c (header_path_of self) = Ascii.eqb "r" c.
Proof. unfold header_path_of. by rewrite ends_with_app. Qed.

Lemma final_path_not_small_file (self : BamMethylData) (final_path : string)
    (regions : list string) :
  final_path_shape self final_path →
  let small := map (region_out_path (run_name self)) regions ++ [header_path_of self] in
  (final_path ∉ small) ∧ (final_path +:+ ".bai") ∉ small.
Proof.
  intros [mid ->]. cbv zeta. split.
  - intros [H | H]%elem_of_app.
    + apply list_elem_of_fmap in H as (c & H & _).
      unfold region_out_path, out_path, region_out_path_name in H.
      rewrite !str_app_assoc in H. apply (inj (String.app _)) in H.
      rewrite !str_app_cons in H. discriminate.
    + apply list_elem_of_singleton in H.
      apply (f_equal (Str.ends_with "m")) in H.
      rewrite header_path_ends in H.
      rewrite <- !str_app_assoc in H. rewrite ends_with_app in H by done.
      discriminate.
  - intros [H | H]%elem_of_app.
    + apply list_elem_of_fmap in H as (c & H & _).
      apply (f_equal (Str.ends_with "m")) in H.
      rewrite region_out_path_ends, ends_with_app in H by done. discriminate.
    + apply list_elem_of_singleton in H.
      apply (f_equal (Str.ends_with "i")) in H.
      rewrite header_path_ends, ends_with_app in H by done. discriminate.
Qed.

Lemma header_not_region_out_path (self : BamMethylData) (regions : list string) :
  header_path_of self ∉ map (region_out_path (run_name self)) regions.
Proof.
  intros (c & H & _)%list_elem_of_fmap.
  apply (f_equal (Str.ends_with "m")) in H.
  rewrite region_out_path_ends, header_path_ends in H. discriminate.
Qed.

(** The shape of the results of a run, for both kinds of run: a list of
    distinct region names gives the paths, and the final path is none of
    the small files. *)
Lemma gather_results_shape (E : Env) (self : BamMethylData) w final_path res w1 :
  gather_results E (proc_chr_job E) self w = (Ok (final_path, res), w1) →
  ∃ regions, NoDup regions
    ∧ paths_of res = map (region_out_path (run_name self)) regions
    ∧ final_path_shape self final_path.
Proof.
  intros H. apply gather_results_ok in H as (hp & wh & _ & H).
  destruct (region_str (self_gr self)) as [r |] eqn:Hr.
  - destruct H as [-> ->]. exists ["1"]. split; [apply NoDup_singleton |].
    split; [done |].
    exists (Str.replace "-" "_" (Str.replace ":" "_" r) +:+ "." +:+ suffix (self_args self)).
    unfold BAM_SUFF. by rewrite !str_app_assoc.
  - destruct H as (-> & regions & wr & Hset & _ & ->). exists regions.
    split; [| split; [apply paths_of_map |]].
    + eapply set_regions_NoDup; [| exact Hset]. by rewrite Hr.
    + eexists. unfold BAM_SUFF. reflexivity.
Qed.

(** C9, as stated, fails: in a run over the contigs [chr1] and
    [chr1_unsorted] in which the second job completes first, the first
    job removes [/out/s1_chr1_unsorted.output.bam], its own unsorted file
    and the sorted file of the second job.  The merge and the index run,
    the clean-up removes the file of [chr1] and raises on the missing
    one: the header file is left. *)
Lemma header_left_after_merge_and_index :
  let self := Cases.self_over Cases.genome_unsorted_contig Sample.args in
  let r := start_threads Cases.env_unsorted_contig self Sample.w0 in
  fst r = Raise (FileNotFoundError "/out/s1_chr1_unsorted.output.bam")
  ∧ files (snd r)
    = {["/data/s1.bam"; "/out/s1.header"; "/out/s1.counts.bam"; "/out/s1.counts.bam.bai"]}
  ∧ "/out/s1.header" ∈ files (snd r)
  ∧ drop 13 (trace (snd r))
    = [Print "finished adding CpG counts";
       Print ": finished processing each chromosome";
       Print ": starting cat of files";
       Popen false ("samtools merge -c -p -f -h /out/s1.header /out/s1.counts.bam "
                    +:+ "/out/s1_chr1.output.bam /out/s1_chr1_unsorted.output.bam");
       Print ": finished cat of files";
       Print "starting index of output bam ";
       Popen false "samtools index /out/s1.counts.bam";
       Print ": finished index of output bam";
       OsRemove "/out/s1_chr1.output.bam";
       OsRemove "/out/s1_chr1_unsorted.output.bam"].
Proof. cbv zeta. repeat split; vm_compute; reflexivity. Qed.

(** C9 (amended).  In a run that collected its results and whose merge
    and index commands split into arguments, if the per-region files and
    the header exist when the index is done, the run ends normally and
    has removed exactly these files, each once, the header last: the file
    system is the one the index left minus them, they are pairwise
    distinct, and neither the final path nor the path of its [.bai] index
    is among them. *)
Theorem cleanup_removes_exactly_small_files (E : Env) (self : BamMethylData) (w : World)
    (final_path : string) (paths : list string) (w1 : World) :
  gather_results E (proc_chr_job E) self w = (Ok (final_path, map Some paths), w1) →
  let header_path := header_path_of self in
  let fs2 := files_after_merge_index E header_path final_path paths (files w1) in
  spawnable false (merge_cmd header_path final_path paths) →
  spawnable false (index_cmd final_path) →
  (∀ p, p ∈ paths → p ∈ fs2) →
  header_path ∈ fs2 →
  start_threads E self w
  = (Ok (),
     mkWorld (fs2 ∖ list_to_set (paths ++ [header_path]))
             (trace w1
                ++ (Print "finished adding CpG counts"
                    :: merge_index_events header_path final_path paths)
                ++ map OsRemove (paths ++ [header_path])))
  ∧ NoDup (paths ++ [header_path])
  ∧ (final_path ∉ paths ++ [header_path])
  ∧ (final_path +:+ ".bai") ∉ paths ++ [header_path].
Proof.
  intros Hres header_path fs2 Hm Hi Hpaths Hheader.
  pose proof (gather_results_no_None _ _ _ _ _ _ Hres) as Hnn.
  destruct (gather_results_shape _ _ _ _ _ _ Hres) as (regions & Hnd & Hp & Hshape).
  assert (Hpo : paths_of (map Some paths) = paths).
  { rewrite <- (map_id paths) at 2. apply (paths_of_map id). }
  rewrite Hpo in Hp.
  pose proof (final_path_not_small_file self final_path regions Hshape) as Hfinal.
  cbv zeta in Hfinal. rewrite <- Hp in Hfinal. destruct Hfinal as [Hf1 Hf2].
  assert (Hall : NoDup (paths ++ [header_path])).
  { apply NoDup_app. split; [| split].
    - rewrite Hp. pose proof (region_out_path_inj (run_name self)) as Hinj.
      by apply (NoDup_fmap_2 (region_out_path (run_name self))).
    - intros p Hin ->%list_elem_of_singleton. rewrite Hp in Hin.
      by apply header_not_region_out_path in Hin.
    - apply NoDup_singleton. }
  split; [| done].
  unfold start_threads, start_threads_with.
  rewrite (bind_ok _ _ _ _ _ Hres). simpl.
  rewrite merge_and_cleanup_run; [| done | by rewrite Hpo | done].
  rewrite Hpo. unfold remove_small_files. fold header_path.
  rewrite for_each_os_remove.
  - simpl. fold fs2. by rewrite <- !app_assoc.
  - done.
  - intros p [Hin | ->%list_elem_of_singleton]%elem_of_app; simpl; [by apply Hpaths | done].
Qed.

Lemma cleanup_removes_exactly_small_files_witness :
  let paths := ["/out/s1_chr1.output.bam"; "/out/s1_chr2.output.bam";
                "/out/s1_chr10.output.bam"] in
  let w1 := snd (gather_results Sample.env (proc_chr_job Sample.env) Sample.self Sample.w0) in
  start_threads Sample.env Sample.self Sample.w0
  = (Ok (),
     mkWorld (files_after_merge_index Sample.env "/out/s1.header" "/out/s1.counts.bam"
                paths (files w1)
              ∖ list_to_set (paths ++ ["/out/s1.header"]))
             (trace w1
                ++ (Print "finished adding CpG counts"
                    :: merge_index_events "/out/s1.header" "/out/s1.counts.bam" paths)
                ++ map OsRemove (paths ++ ["/out/s1.header"])))
  ∧ NoDup (paths ++ ["/out/s1.header"])
  ∧ ("/out/s1.counts.bam" ∉ paths ++ ["/out/s1.header"])
  ∧ ("/out/s1.counts.bam" +:+ ".bai") ∉ paths ++ ["/out/s1.header"].
Proof.
  cbv zeta.
  apply (cleanup_removes_exactly_small_files Sample.env Sample.self Sample.w0
           "/out/s1.counts.bam"
           ["/out/s1_chr1.output.bam"; "/out/s1_chr2.output.bam";
            "/out/s1_chr10.output.bam"]).
  - vm_compute. reflexivity.
  - right. eexists. vm_compute. reflexivity.
  - right. eexists. vm_compute. reflexivity.
  - intros p Hp.
    repeat (apply elem_of_cons in Hp as [-> | Hp]; [vm_compute; reflexivity |]).
    by apply elem_of_nil in Hp.
  - vm_compute. reflexivity.
Defined.

(** The files that the sample run leaves: the input, the merged file
    and its index. *)
Example sample_run_leaves_output :
  files (snd (start_threads Sample.env Sample.self Sample.w0))
  = {["/data/s1.bam"; "/out/s1.counts.bam"; "/out/s1.counts.bam.bai"]}.
Proof. vm_compute. reflexivity. Qed.

(** ** C5: no contig in common *)

(** C5, as stated, fails: for an alignment file whose contig listing
    succeeds and prints nothing, no contig is common to the file and the
    genome, yet the resolver returns the empty list and raises nothing;
    the run then ends with [IllegalArgumentError('Empty bam file')], and
    no hint about the reference configuration is printed. *)
Lemma empty_listing_is_not_a_resolution_error :
  let E := Cases.env_listing_empty in
  let fs1 : gset string := {["/data/s1.bam"; "/out/s1.header"]} in
  let r := start_threads E Sample.self Sample.w0 in
  run_popen E true (idxstats_cmd "/data/s1.bam") fs1 = ((0%Z, "", ""), fs1)
  ∧ fst (set_regions E Sample.self (mkWorld fs1 [])) = Ok []
  ∧ fst r = Raise (IllegalArgumentError "Empty bam file")
  ∧ trace (snd r)
    = [Print ": *** starting processing of each chromosome";
       SubprocessWrap "samtools view -H /data/s1.bam > /out/s1.header " false;
       PoolOpen 4;
       Popen true "samtools idxstats /data/s1.bam | cut -f1 ";
       Eprint ("[wt acc] Failed with samtools idxstats 0" +:+ nl +:+ nl);
       Eprint "samtools idxstats /data/s1.bam | cut -f1 ";
       Eprint "[wt acc] falied to find chromosomes"]
  ∧ Eprint no_chroms_msg ∉ trace (snd r).
Proof.
  cbv zeta. split; [reflexivity |]. split; [vm_compute; reflexivity |].
  split; [vm_compute; reflexivity |]. split; [vm_compute; reflexivity |].
  intros H. vm_compute in H.
  repeat (apply elem_of_cons in H as [H | H]; [discriminate |]).
  by apply elem_of_nil in H.
Qed.

(** C5 (amended).  In a run without an explicit region, with a pool of
    at least one process, whose header extraction returned: if the contig
    listing exits with status 0, prints something, and none of the listed
    contigs is known to the reference genome, the resolver prints the hint
    about the reference configuration on standard error and raises
    [IllegalArgumentError('Failed')], and so does the run: after the pool
    was opened it only listed the contigs and printed the hint; no job was
    submitted, no merge or index was started, and the file system is the
    one the listing left, with what the header extraction wrote. *)
Theorem no_common_contig_fails (E : Env) (self : BamMethylData) (w : World)
    (fs1 fs2 : gset string) (out err : string) :
  region_str (self_gr self) = None →
  (1 ≤ threads (self_args self))%Z →
  run_subprocess_wrap E (header_cmd self) (self_debug self) (files w) = (Ok (), fs1) →
  run_popen E true (idxstats_cmd (self_bam_path self)) fs1 = ((0%Z, out, err), fs2) →
  out ≠ "" →
  (∀ c, c ∈ parse_chroms out → c ∉ get_chroms (genome (self_gr self))) →
  (∀ tr, set_regions E self (mkWorld fs1 tr)
         = (Raise (IllegalArgumentError "Failed"),
            mkWorld fs2 (tr ++ [Popen true (idxstats_cmd (self_bam_path self));
                                Eprint no_chroms_msg])))
  ∧ start_threads E self w
    = (Raise (IllegalArgumentError "Failed"),
       mkWorld fs2
         (trace w ++ [Print ": *** starting processing of each chromosome";
                      SubprocessWrap (header_cmd self) (self_debug self);
                      PoolOpen (threads (self_args self));
                      Popen true (idxstats_cmd (self_bam_path self));
                      Eprint no_chroms_msg]))
  ∧ String.index 0 "wgbstools set_default_ref" no_chroms_msg ≠ None.
Proof.
  intros Hnone Hthreads Hh Hp Hout Hnc.
  assert (Hset : ∀ tr, set_regions E self (mkWorld fs1 tr)
            = (Raise (IllegalArgumentError "Failed"),
               mkWorld fs2 (tr ++ [Popen true (idxstats_cmd (self_bam_path self));
                                   Eprint no_chroms_msg]))).
  { intros tr. apply (set_regions_none_found E self (mkWorld fs1 tr) out err fs2); try done.
    by rewrite Hnone. }
  split; [exact Hset |]. split; [| by vm_compute].
  unfold start_threads, start_threads_with, gather_results.
  apply bind_raise.
  rewrite (bind_ok _ _ _ _ _ (extract_header_ok E self w fs1 Hh)).
  unfold collect_results. rewrite Hnone.
  rewrite (bind_ok _ _ _ _ _ (pool_open_ok _ _ Hthreads)). simpl.
  apply bind_raise. rewrite Hset. by rewrite <- !app_assoc.
Qed.

Lemma no_common_contig_fails_witness :
  let E := Sample.env_mismatch in
  let self := Sample.self_mismatch in
  let fs1 : gset string := {["/data/s1.bam"; "/out/s1.header"]} in
  (∀ tr, set_regions E self (mkWorld fs1 tr)
         = (Raise (IllegalArgumentError "Failed"),
            mkWorld fs1 (tr ++ [Popen true (idxstats_cmd (self_bam_path self));
                                Eprint no_chroms_msg])))
  ∧ start_threads E self Sample.w0
    = (Raise (IllegalArgumentError "Failed"),
       mkWorld fs1
         (trace Sample.w0
            ++ [Print ": *** starting processing of each chromosome";
                SubprocessWrap (header_cmd self) (self_debug self);
                PoolOpen (threads (self_args self));
                Popen true (idxstats_cmd (self_bam_path self));
                Eprint no_chroms_msg]))
  ∧ String.index 0 "wgbstools set_default_ref" no_chroms_msg ≠ None.
Proof.
  cbv zeta.
  apply (no_common_contig_fails Sample.env_mismatch Sample.self_mismatch Sample.w0
           {["/data/s1.bam"; "/out/s1.header"]} {["/data/s1.bam"; "/out/s1.header"]}
           Sample.idxstats_output "").
  - reflexivity.
  - vm_compute. discriminate.
  - vm_compute. reflexivity.
  - vm_compute. reflexivity.
  - vm_compute. discriminate.
  - intros c Hc. vm_compute in Hc.
    repeat (apply elem_of_cons in Hc as [-> | Hc];
            [vm_compute; intros H;
             repeat (apply elem_of_cons in H as [H | H]; [discriminate |]);
             by apply elem_of_nil in H |]).
    by apply elem_of_nil in Hc.
Defined.

(** ** C8: a run for an explicit region *)

(** C8.  With an explicit, non-empty region the resolver returns that
    region alone and does nothing else, not even the contig listing; the
    run is the header extraction, one direct call of [proc_chr] on the
    region, and the merge, index and clean-up over its single result; it
    adds no event of the worker pool and no contig listing to the trace. *)
Theorem explicit_region_runs_inline (E : Env) (self : BamMethylData) (w : World)
    (r : string) :
  region_str (self_gr self) = Some r →
  r ≠ "" →
  set_regions E self w = (Ok [r], w)
  ∧ start_threads E self w
    = (extract_header E self ;;;
       r1 <- proc_chr E (job_params E self (region_out_path_name (run_name self) "1")
                                    r (header_path_of self)) ;;
       merge_and_cleanup E (header_path_of self) (region_final_path self r) [Some r1]) w
  ∧ emits_only inline_only (start_threads E self).
Proof.
  intros Hr Hne. split; [by apply set_regions_explicit |].
  assert (Heq : ∀ w', start_threads E self w'
    = (extract_header E self ;;;
       r1 <- proc_chr E (job_params E self (region_out_path_name (run_name self) "1")
                                    r (header_path_of self)) ;;
       merge_and_cleanup E (header_path_of self) (region_final_path self r) [Some r1]) w').
  { intros w'. unfold start_threads, start_threads_with, gather_results, collect_results.
    rewrite Hr. unfold proc_chr_job, bind, ret.
    destruct (extract_header E self w') as [[hp | e] wh]; [| done].
    by destruct (proc_chr E _ wh) as [[r1 | e] wj]. }
  split; [apply Heq |].
  intros w'. rewrite Heq.
  revert w'. change (emits_only inline_only
    (extract_header E self ;;;
     r1 <- proc_chr E (job_params E self (region_out_path_name (run_name self) "1")
                                  r (header_path_of self)) ;;
     merge_and_cleanup E (header_path_of self) (region_final_path self r) [Some r1])).
  apply emits_bind; [by apply extract_header_emits | intros _].
  apply emits_bind; [by apply proc_chr_emits | intros r1].
  by apply merge_and_cleanup_emits.
Qed.

Lemma explicit_region_runs_inline_witness :
  let E := Sample.env in
  let self := Sample.self_region in
  set_regions E self Sample.w0 = (Ok ["chr1:100-200"], Sample.w0)
  ∧ start_threads E self Sample.w0
    = (extract_header E self ;;;
       r1 <- proc_chr E (job_params E self (region_out_path_name (run_name self) "1")
                                    "chr1:100-200" (header_path_of self)) ;;
       merge_and_cleanup E (header_path_of self)
                         (region_final_path self "chr1:100-200") [Some r1]) Sample.w0
  ∧ emits_only inline_only (start_threads E self).
Proof.
  cbv zeta.
  apply (explicit_region_runs_inline Sample.env Sample.self_region Sample.w0 "chr1:100-200").
  - reflexivity.
  - discriminate.
Defined.

(** ** C7: an error on one of several input files *)

(** C7, as stated, fails: in an invocation on two files where no contig
    of the first file is known to the genome, [main] ends with the error
    of the first file and nothing is done for the second one. *)
Lemma resolution_error_ends_invocation :
  let r := main Sample.env_mismatch Sample.args2 Sample.w0 in
  bam Sample.args2 = ["/data/s1.bam"; "/data/s2.bam"]
  ∧ fst r = Raise (IllegalArgumentError "Failed")
  ∧ trace (snd r)
    = [Print ": *** starting processing of each chromosome";
       SubprocessWrap "samtools view -H /data/s1.bam > /out/s1.header " false;
       PoolOpen 4;
       Popen true "samtools idxstats /data/s1.bam | cut -f1 ";
       Eprint no_chroms_msg]
  ∧ SubprocessWrap "samtools view -H /data/s2.bam > /out/s2.header " false
    ∉ trace (snd r).
Proof.
  cbv zeta. split; [reflexivity |]. split; [vm_compute; reflexivity |].
  split; [vm_compute; reflexivity |].
  intros H. vm_compute in H.
  repeat (apply elem_of_cons in H as [H | H]; [discriminate |]).
  by apply elem_of_nil in H.
Qed.

(** C7 (amended).  When the processing of one input file raises, for
    one a resolution error, [main] ends with that exception in the world
    of the raise: the files after it are not processed. *)
Theorem error_on_one_file_ends_main (E : Env) (args : Args) (w : World)
    (pre : list string) (b : string) (rest : list string)
    (w1 w2 : World) (e : exn) :
  bam args = pre ++ b :: rest →
  validate_local_exe E (add_cpg_count_tool E) = Ok () →
  for_each (main_body E args) pre w = (Ok (), w1) →
  main_body E args b w1 = (Raise e, w2) →
  main E args w = (Raise e, w2).
Proof.
  intros Hbam Hexe Hpre Hb. unfold main. rewrite Hexe, Hbam.
  unfold bind, lift. by apply for_each_raise with (w1 := w1).
Qed.

Lemma error_on_one_file_ends_main_witness :
  main Sample.env_mismatch Sample.args2 Sample.w0
  = (Raise (IllegalArgumentError "Failed"),
     snd (main_body Sample.env_mismatch Sample.args2 "/data/s1.bam" Sample.w0)).
Proof.
  apply (error_on_one_file_ends_main Sample.env_mismatch Sample.args2 Sample.w0
           [] "/data/s1.bam" ["/data/s2.bam"] Sample.w0).
  - reflexivity.
  - reflexivity.
  - reflexivity.
  - vm_compute. reflexivity.
Defined.

(** * More of the module *)

(** ** More facts about strings *)

Lemma mem_app (c : ascii) (a b : string) :
  Str.mem c (a +:+ b) = Str.mem c a || Str.mem c b.
Proof.
  induction a as [|x a IH]; [done |]. rewrite str_app_cons. simpl.
  by rewrite IH, orb_assoc.
Qed.

Lemma substring_0_app (a t : string) : String.substring 0 (String.length a) (a +:+ t) = a.
Proof.
  induction a as [|x a IH].
  - rewrite str_app_nil_l. by destruct t.
  - rewrite str_app_cons. simpl. by rewrite IH.
Qed.

(** [(a + t)[:-len(t)]] is [a]. *)
Lemma drop_last_app (a t : string) : Str.drop_last (String.length t) (a +:+ t) = a.
Proof.
  unfold Str.drop_last. rewrite str_length_app.
  replace (String.length a + String.length t - String.length t) with (String.length a) by lia.
  apply substring_0_app.
Qed.

Lemma rev_app_nil (s : string) : String.rev_app "" s = s.
Proof. reflexivity. Qed.

(** Without a slash to restart at, the scan returns what it has seen. *)
Lemma basename_go_no_slash (cur b : string) :
  Str.mem "/" b = false → Str.basename_go cur b = String.rev_app cur b.
Proof.
  revert cur. induction b as [|a b IH]; intros cur Hb; simpl in *; [done |].
  apply orb_false_iff in Hb as [Ha Hb]. rewrite Ha. by rewrite IH.
Qed.

Lemma basename_go_dir (cur d b : string) :
  Str.basename_go cur (d +:+ "/" +:+ b) = Str.basename_go "" b.
Proof.
  revert cur. induction d as [|a d IH]; intros cur.
  - reflexivity.
  - rewrite str_app_cons. simpl. destruct (Ascii.eqb a "/"); apply IH.
Qed.

(** [basename(d + '/' + b)] is [b] when [b] has no slash. *)
Lemma basename_dir (d b : string) :
  Str.mem "/" b = false → Str.basename (d +:+ "/" +:+ b) = b.
Proof.
  intros Hb. unfold Str.basename. rewrite basename_go_dir.
  by rewrite basename_go_no_slash.
Qed.

Lemma split_go_no_sep (sep : ascii) (cur x : string) :
  Str.mem sep x = false → Str.split_go sep cur x = [String.rev_app cur x].
Proof.
  revert cur. induction x as [|a x IH]; intros cur Hx; simpl in *; [done |].
  apply orb_false_iff in Hx as [Ha Hx]. rewrite Ha. by rewrite IH.
Qed.

Lemma split_go_sep (sep : ascii) (cur x t : string) :
  Str.mem sep x = false →
  Str.split_go sep cur (x +:+ String sep t) = String.rev_app cur x :: Str.split_go sep "" t.
Proof.
  revert cur. induction x as [|a x IH]; intros cur Hx; simpl in Hx.
  - rewrite str_app_nil_l. simpl. by rewrite Ascii.eqb_refl.
  - apply orb_false_iff in Hx as [Ha Hx]. rewrite str_app_cons. simpl.
    rewrite Ha. by rewrite IH.
Qed.

(** Splitting undoes joining, for a list that is not empty and whose
    elements do not hold the separator. *)
Lemma split_join (sep : ascii) (l : list string) :
  l ≠ [] →
  Forall (λ x, Str.mem sep x = false) l →
  Str.split sep (Str.join (String sep "") l) = l.
Proof.
  intros Hne HF. unfold Str.split.
  induction HF as [|x l Hx HF IH]; [done |].
  destruct l as [|y l].
  - simpl. by rewrite split_go_no_sep.
  - change (Str.join (String sep "") (x :: y :: l))
      with (x +:+ String sep "" +:+ Str.join (String sep "") (y :: l)).
    rewrite str_app_cons, str_app_nil_l.
    rewrite split_go_sep by done. rewrite rev_app_nil. f_equal. by apply IH.
Qed.

Lemma replace_length (a b : ascii) (s : string) :
  String.length (Str.replace a b s) = String.length s.
Proof. induction s as [|c s IH]; simpl; [done | by rewrite IH]. Qed.

Lemma replace_removes (a b : ascii) (s : string) :
  a ≠ b → Str.mem a (Str.replace a b s) = false.
Proof.
  intros Hab. induction s as [|c s IH]; simpl; [done |]. rewrite IH, orb_false_r.
  destruct (Ascii.eqb c a) eqn:Hc; [| done].
  apply Ascii.eqb_neq. congruence.
Qed.

Lemma replace_keeps_out (a b c : ascii) (s : string) :
  c ≠ b → Str.mem c s = false → Str.mem c (Str.replace a b s) = false.
Proof.
  intros Hcb. induction s as [|x s IH]; simpl; [done |].
  intros [Hx Hs]%orb_false_iff. rewrite IH, orb_false_r by done.
  destruct (Ascii.eqb x a); [| done]. apply Ascii.eqb_neq. congruence.
Qed.

(** ** The names of the files of a run *)

(** X9.  The token of an explicit region in the name of the final file has
    the length of the region and holds no colon and no dash, and the
    final path of the run is the run name, a dot, the token, a dot, the
    suffix and [.bam]. *)
Theorem region_token_has_no_colon_or_dash (self : BamMethylData) (r : string) :
  String.length (region_str_for_name r) = String.length r
  ∧ Str.mem ":" (region_str_for_name r) = false
  ∧ Str.mem "-" (region_str_for_name r) = false
  ∧ region_final_path self r
    = run_name self +:+ "." +:+ region_str_for_name r +:+ "."
      +:+ suffix (self_args self) +:+ ".bam".
Proof.
  unfold region_str_for_name. split; [by rewrite !replace_length |].
  split; [| split; [by apply replace_removes | reflexivity]].
  apply replace_keeps_out; [done |]. by apply replace_removes.
Qed.

(** X10.  For an input path [d/b.bam] with no slash in [b], the run name is
    [b] joined to the output directory, so the header goes to
    [out_dir/b.header] and the per-region files to
    [out_dir/b_<region>.output.bam]. *)
Theorem run_name_of_bam_path (self : BamMethylData) (d b : string) :
  self_bam_path self = d +:+ "/" +:+ b +:+ ".bam" →
  Str.mem "/" b = false →
  run_name self = Str.path_join (self_out_dir self) b
  ∧ header_path_of self = Str.path_join (self_out_dir self) b +:+ ".header"
  ∧ ∀ c, region_out_path (run_name self) c
         = Str.path_join (self_out_dir self) b +:+ "_" +:+ c +:+ ".output.bam".
Proof.
  intros Hpath Hb.
  assert (Hname : run_name self = Str.path_join (self_out_dir self) b).
  { unfold run_name. rewrite Hpath. rewrite basename_dir.
    - f_equal. exact (drop_last_app b ".bam").
    - rewrite mem_app, Hb. reflexivity. }
  split; [done |]. split.
  - unfold header_path_of. by rewrite Hname.
  - intros c. unfold region_out_path, out_path, region_out_path_name.
    by rewrite Hname, !str_app_assoc.
Qed.

Lemma run_name_of_bam_path_witness :
  run_name Sample.self = Str.path_join (self_out_dir Sample.self) "s1"
  ∧ header_path_of Sample.self = Str.path_join (self_out_dir Sample.self) "s1" +:+ ".header"
  ∧ ∀ c, region_out_path (run_name Sample.self) c
         = Str.path_join (self_out_dir Sample.self) "s1" +:+ "_" +:+ c +:+ ".output.bam".
Proof.
  apply (run_name_of_bam_path Sample.self "/data" "s1"); reflexivity.
Defined.

(** ** The contig listing *)

(** X11.  The output of the listing, one contig per line and a newline after
    the last, is read back as the list of the contigs. *)
Theorem parse_chroms_lines (names : list string) :
  names ≠ [] →
  Forall (λ n, Str.mem (ascii_of_nat 10) n = false) names →
  parse_chroms (Str.join nl names +:+ nl) = names.
Proof.
  intros Hne HF. unfold parse_chroms.
  pose proof (drop_last_app (Str.join nl names) nl) as Hdrop.
  change (String.length nl) with 1 in Hdrop. rewrite Hdrop.
  by apply split_join.
Qed.

Lemma parse_chroms_lines_witness :
  parse_chroms (Str.join nl ["chr2"; "chr10"; "chr1"; "chrUn_1"; "*"] +:+ nl)
  = ["chr2"; "chr10"; "chr1"; "chrUn_1"; "*"].
Proof.
  apply (parse_chroms_lines ["chr2"; "chr10"; "chr1"; "chrUn_1"; "*"]).
  - discriminate.
  - repeat constructor.
Defined.

(** ** The resolver, when the listing fails, and ties of the key *)

(** The contig listing failed: non-zero return code, or no output. *)
Lemma set_regions_listing_failed (E : Env) (self : BamMethylData) w rc out err fs' :
  truthy (region_str (self_gr self)) = false →
  run_popen E true (idxstats_cmd (self_bam_path self)) (files w) = ((rc, out, err), fs') →
  rc ≠ 0%Z ∨ out = "" →
  set_regions E self w
  = (Ok [], mkWorld fs' (trace w ++ listing_failed_events
                                      (idxstats_cmd (self_bam_path self)) rc out err)).
Proof.
  intros Ht Hp Hfail. unfold set_regions. rewrite Ht.
  rewrite (bind_ok _ _ _ _ _ (popen_shell_run _ _ _)). rewrite Hp. simpl.
  assert (negb (rc =? 0)%Z || String.eqb out "" = true) as ->.
  { destruct Hfail as [Hrc | ->].
    - apply Z.eqb_neq in Hrc. by rewrite Hrc.
    - apply orb_true_r. }
  unfold bind, emit, ret, listing_failed_events. simpl. by rewrite <- !app_assoc.
Qed.

(** X1.  When the contig listing of a run without an explicit region and
    with a pool of at least one process exits with a non-zero status or
    prints nothing, the resolver reports it on standard error and returns
    the empty list without raising; the run then raises
    [IllegalArgumentError('Empty bam file')] with the pool open and no job
    submitted, and the header file is not removed. *)
Theorem failed_listing_is_empty_bam (E : Env) (self : BamMethylData) (w : World)
    (fs1 fs2 : gset string) (rc : Z) (out err : string) :
  region_str (self_gr self) = None →
  (1 ≤ threads (self_args self))%Z →
  run_subprocess_wrap E (header_cmd self) (self_debug self) (files w) = (Ok (), fs1) →
  run_popen E true (idxstats_cmd (self_bam_path self)) fs1 = ((rc, out, err), fs2) →
  rc ≠ 0%Z ∨ out = "" →
  (∀ tr, set_regions E self (mkWorld fs1 tr)
         = (Ok [], mkWorld fs2 (tr ++ listing_failed_events
                                        (idxstats_cmd (self_bam_path self)) rc out err)))
  ∧ start_threads E self w
    = (Raise (IllegalArgumentError "Empty bam file"),
       mkWorld fs2
         (trace w
            ++ [Print ": *** starting processing of each chromosome";
                SubprocessWrap (header_cmd self) (self_debug self);
                PoolOpen (threads (self_args self))]
            ++ listing_failed_events (idxstats_cmd (self_bam_path self)) rc out err)).
Proof.
  intros Hnone Hthreads Hh Hp Hfail.
  assert (Hset : ∀ tr, set_regions E self (mkWorld fs1 tr)
            = (Ok [], mkWorld fs2 (tr ++ listing_failed_events
                                           (idxstats_cmd (self_bam_path self)) rc out err))).
  { intros tr. apply (set_regions_listing_failed E self (mkWorld fs1 tr) rc out err fs2);
      try done. by rewrite Hnone. }
  split; [exact Hset |].
  unfold start_threads, start_threads_with, gather_results.
  apply bind_raise.
  rewrite (bind_ok _ _ _ _ _ (extract_header_ok E self w fs1 Hh)).
  unfold collect_results. rewrite Hnone.
  rewrite (bind_ok _ _ _ _ _ (pool_open_ok _ _ Hthreads)). simpl.
  rewrite (bind_ok _ _ _ _ _ (Hset _)). simpl.
  unfold bind, ret, raise. simpl. by rewrite <- !app_assoc.
Qed.

Lemma failed_listing_is_empty_bam_witness :
  let E := Cases.env_listing_fails in
  let self := Sample.self in
  let fs1 : gset string := {["/data/s1.bam"; "/out/s1.header"]} in
  (∀ tr, set_regions E self (mkWorld fs1 tr)
         = (Ok [], mkWorld fs1 (tr ++ listing_failed_events
                                        (idxstats_cmd (self_bam_path self))
                                        1 "" "idxstats: failed")))
  ∧ start_threads E self Sample.w0
    = (Raise (IllegalArgumentError "Empty bam file"),
       mkWorld fs1
         (trace Sample.w0
            ++ [Print ": *** starting processing of each chromosome";
                SubprocessWrap (header_cmd self) (self_debug self);
                PoolOpen (threads (self_args self))]
            ++ listing_failed_events (idxstats_cmd (self_bam_path self))
                 1 "" "idxstats: failed")).
Proof.
  cbv zeta.
  apply (failed_listing_is_empty_bam Cases.env_listing_fails Sample.self Sample.w0
           {["/data/s1.bam"; "/out/s1.header"]} {["/data/s1.bam"; "/out/s1.header"]}
           1 "" "idxstats: failed").
  - reflexivity.
  - vm_compute. discriminate.
  - vm_compute. reflexivity.
  - vm_compute. reflexivity.
  - left. discriminate.
Defined.

(** X2.  When the extraction of the header raises, the run ends with that
    exception right there: the pool is not opened, the contigs are not
    listed, no job runs and nothing is merged or removed. *)
Theorem failed_header_ends_run (E : Env) (self : BamMethylData) (w : World)
    (e : exn) (fs1 : gset string) :
  run_subprocess_wrap E (header_cmd self) (self_debug self) (files w) = (Raise e, fs1) →
  start_threads E self w
  = (Raise e,
     mkWorld fs1 (trace w ++ [Print ": *** starting processing of each chromosome";
                              SubprocessWrap (header_cmd self) (self_debug self)])).
Proof.
  intros Hh. unfold start_threads, start_threads_with, gather_results.
  apply bind_raise. apply bind_raise.
  unfold extract_header, proc_header.
  rewrite (bind_ok _ _ _ _ _ (emit_run _ _)).
  erewrite bind_raise; [| apply subprocess_wrap_run; exact Hh].
  simpl. by rewrite <- app_assoc.
Qed.

Lemma failed_header_ends_run_witness :
  start_threads Cases.env_shell_fails Sample.self Sample.w0
  = (Raise (IllegalArgumentError "Failed"),
     mkWorld {["/data/s1.bam"]}
       (trace Sample.w0 ++ [Print ": *** starting processing of each chromosome";
                            SubprocessWrap (header_cmd Sample.self)
                                           (self_debug Sample.self)])).
Proof.
  apply (failed_header_ends_run Cases.env_shell_fails Sample.self Sample.w0).
  reflexivity.
Defined.

(** Insertion keeps the elements of any one key in their order. *)
Lemma insert_by_stable (key : string → Z) (k : Z) (x : string) (l : list string) :
  filter (λ c, key c = k) (insert_by key x l) = filter (λ c, key c = k) (x :: l).
Proof.
  induction l as [|y l IH]; simpl; [done |].
  destruct (key x <=? key y)%Z eqn:Hxy; [done |].
  apply Z.leb_gt in Hxy.
  rewrite (filter_cons _ y), IH, !(filter_cons _ x), (filter_cons _ y).
  destruct (decide (key x = k)) as [Hx | Hx]; [| done].
  destruct (decide (key y = k)) as [Hy | Hy]; [lia | done].
Qed.

Lemma sorted_by_stable (key : string → Z) (k : Z) (l : list string) :
  filter (λ c, key c = k) (sorted_by key l) = filter (λ c, key c = k) l.
Proof.
  induction l as [|x l IH]; simpl; [done |].
  by rewrite insert_by_stable, !filter_cons, IH.
Qed.

(** X8.  The sort of the resolver is stable: the resolved contigs that share
    a value of the [chromosome_order] key come in the order in which the
    intersection set was iterated, which the program does not control. *)
Theorem set_regions_ties_in_set_order (E : Env) (self : BamMethylData) (w : World)
    (out err : string) (fs' : gset string) (regions : list string) (w' : World) :
  truthy (region_str (self_gr self)) = false →
  run_popen E true (idxstats_cmd (self_bam_path self)) (files w) = ((0%Z, out, err), fs') →
  out ≠ "" →
  set_regions E self w = (Ok regions, w') →
  ∀ k, filter (λ c, chromosome_order E c = k) regions
       = filter (λ c, chromosome_order E c = k)
           (intersect_chroms E (parse_chroms out) (get_chroms (genome (self_gr self)))).
Proof.
  intros Ht Hp Hout Hset k.
  destruct (intersect_chroms E (parse_chroms out) (get_chroms (genome (self_gr self))))
    as [|c l] eqn:Hi.
  - unfold set_regions in Hset. rewrite Ht in Hset.
    rewrite (bind_ok _ _ _ _ _ (popen_shell_run _ _ _)) in Hset.
    rewrite Hp in Hset. simpl in Hset.
    apply String.eqb_neq in Hout. rewrite Hout in Hset. simpl in Hset.
    rewrite Hi in Hset. by inv_bind Hset as u wu Hu.
  - rewrite (set_regions_found E self w out err fs' Ht Hp) in Hset.
    + rewrite Hi in Hset.
      assert (regions = sorted_by (chromosome_order E) (c :: l)) as -> by congruence.
      apply sorted_by_stable.
    + done.
    + by rewrite Hi.
Qed.

Lemma set_regions_ties_in_set_order_witness :
  filter (λ c, chromosome_order Cases.env_ties c = 10003%Z) ["chr1"; "chrUn_b"; "chrUn_a"]
  = filter (λ c, chromosome_order Cases.env_ties c = 10003%Z)
      (intersect_chroms Cases.env_ties (parse_chroms Cases.listing_ties)
         (get_chroms Cases.genome_ties)).
Proof.
  apply (set_regions_ties_in_set_order Cases.env_ties
           (Cases.self_over Cases.genome_ties Sample.args) Sample.w0
           Cases.listing_ties "" {["/data/s1.bam"]} ["chr1"; "chrUn_b"; "chrUn_a"]
           (mkWorld {["/data/s1.bam"]}
                    [Popen true "samtools idxstats /data/s1.bam | cut -f1 "])).
  - reflexivity.
  - vm_compute. reflexivity.
  - vm_compute. discriminate.
  - vm_compute. reflexivity.
Defined.

(** In that run the two contigs of key 10003 come in the order in which
    the set was iterated, here the reverse of the listing. *)
Example sample_ties_follow_set_order :
  filter (λ c, chromosome_order Cases.env_ties c = 10003%Z) ["chr1"; "chrUn_b"; "chrUn_a"]
  = ["chrUn_b"; "chrUn_a"]
  ∧ intersect_chroms Cases.env_ties (parse_chroms Cases.listing_ties)
      (get_chroms Cases.genome_ties)
    = ["chrUn_b"; "chrUn_a"; "chr1"].
Proof. split; vm_compute; reflexivity. Qed.

(** ** One job *)

(** X5.  What [proc_chr] does, by the outcomes of its two shell commands:
    the sort runs only when the pipeline returned, the unsorted file is
    removed only when the sort returned, the removal raises when the
    file is not there, and only then the path of the sorted file is
    returned.  A stage that raises leaves what was written before it. *)
Theorem proc_chr_outcome (E : Env) (p : JobParams) (w : World) :
  let dbg := job_debug p in
  let unsorted := unsorted_bam (out_path_name p) in
  let s1 := run_subprocess_wrap E (pipeline_cmd E p) dbg (files w) in
  let s2 := run_subprocess_wrap E (sort_cmd p) dbg (snd s1) in
  let ev1 := SubprocessWrap (pipeline_cmd E p) dbg in
  let ev2 := SubprocessWrap (sort_cmd p) dbg in
  proc_chr E p w
  = match fst s1 with
    | Raise e => (Raise e, mkWorld (snd s1) (trace w ++ [ev1]))
    | Ok _ =>
        match fst s2 with
        | Raise e => (Raise e, mkWorld (snd s2) (trace w ++ [ev1; ev2]))
        | Ok _ =>
            if decide (unsorted ∈ snd s2)
            then (Ok (out_path (out_path_name p)),
                  mkWorld (snd s2 ∖ {[unsorted]}) (trace w ++ [ev1; ev2; OsRemove unsorted]))
            else (Raise (FileNotFoundError unsorted),
                  mkWorld (snd s2) (trace w ++ [ev1; ev2; OsRemove unsorted]))
        end
    end.
Proof.
  cbv zeta. unfold proc_chr.
  destruct (run_subprocess_wrap E (pipeline_cmd E p) (job_debug p) (files w))
    as [[[] | e1] fs1] eqn:H1; simpl.
  - rewrite (bind_ok _ _ _ _ _ (subprocess_wrap_run _ _ _ _ _ _ H1)).
    destruct (run_subprocess_wrap E (sort_cmd p) (job_debug p) fs1)
      as [[[] | e2] fs2] eqn:H2; simpl.
    + erewrite bind_ok; [| apply subprocess_wrap_run; exact H2].
      destruct (decide (unsorted_bam (out_path_name p) ∈ fs2)) as [Hin | Hin].
      * erewrite bind_ok; [| by apply os_remove_present].
        unfold ret. simpl. by rewrite <- !app_assoc.
      * erewrite bind_raise; [| by apply os_remove_missing].
        simpl. by rewrite <- !app_assoc.
    + erewrite bind_raise; [| apply subprocess_wrap_run; exact H2].
      simpl. by rewrite <- !app_assoc.
  - by rewrite (bind_raise _ _ _ _ _ (subprocess_wrap_run _ _ _ _ _ _ H1)).
Qed.

(** ** The removal of the small files, when one is missing *)

Lemma for_each_app {A} (body : A → M unit) (pre rest : list A) w w1 :
  for_each body pre w = (Ok (), w1) →
  for_each body (pre ++ rest) w = for_each body rest w1.
Proof.
  revert w. induction pre as [|x pre IH]; intros w Hpre; simpl in *.
  - unfold ret in Hpre. by simplify_eq.
  - inv_bind Hpre as u wx Hx. destruct u.
    rewrite (bind_ok _ _ _ _ _ Hx). by apply IH.
Qed.

(** The removal stops at the first path that does not exist. *)
Lemma for_each_os_remove_missing (pre : list string) (p : string) (rest : list string) w :
  NoDup pre →
  (∀ q, q ∈ pre → q ∈ files w) →
  p ∉ pre →
  p ∉ files w →
  for_each os_remove (pre ++ p :: rest) w
  = (Raise (FileNotFoundError p),
     mkWorld (files w ∖ list_to_set pre) (trace w ++ map OsRemove (pre ++ [p]))).
Proof.
  intros Hnd Hpre Hp1 Hp2.
  apply for_each_raise with
    (w1 := mkWorld (files w ∖ list_to_set pre) (trace w ++ map OsRemove pre)).
  - by apply for_each_os_remove.
  - rewrite os_remove_missing.
    + simpl. by rewrite map_app, app_assoc.
    + simpl. intros [Hin _]%elem_of_difference. done.
Qed.

(** X6.  In a run whose merge and index commands split into arguments,
    when a per-region file or the header is missing once the index is
    done, the run ends with [FileNotFoundError] for the first missing
    path: the paths before it are removed, and the paths after it, the
    header last, are left on disk although the merge and the index ran. *)
Theorem cleanup_stops_at_missing_file (E : Env) (self : BamMethylData) (w : World)
    (final_path : string) (res : list (option string)) (w1 : World)
    (pre : list string) (p : string) (rest : list string) :
  gather_results E (proc_chr_job E) self w = (Ok (final_path, res), w1) →
  let header_path := header_path_of self in
  let fs2 := files_after_merge_index E header_path final_path (paths_of res) (files w1) in
  spawnable false (merge_cmd header_path final_path (paths_of res)) →
  spawnable false (index_cmd final_path) →
  paths_of res ++ [header_path] = pre ++ p :: rest →
  (∀ q, q ∈ pre → q ∈ fs2) →
  p ∉ fs2 →
  ∃ w3,
    start_threads E self w = (Raise (FileNotFoundError p), w3)
    ∧ files w3 = fs2 ∖ list_to_set pre
    ∧ (∀ q, q ∈ rest → q ∈ fs2 → q ∈ files w3)
    ∧ trace w3
      = trace w1
        ++ (Print "finished adding CpG counts"
            :: merge_index_events header_path final_path (paths_of res))
        ++ map OsRemove (pre ++ [p]).
Proof.
  intros Hres header_path fs2 Hm Hi Hsplit Hpre Hp.
  pose proof (gather_results_no_None _ _ _ _ _ _ Hres) as Hnn.
  destruct (gather_results_shape _ _ _ _ _ _ Hres) as (regions & Hnd & Hpaths & _).
  assert (Hall : NoDup (pre ++ p :: rest)).
  { rewrite <- Hsplit. apply NoDup_app. split; [| split].
    - rewrite Hpaths. pose proof (region_out_path_inj (run_name self)) as Hinj.
      by apply (NoDup_fmap_2 (region_out_path (run_name self))).
    - intros q Hin ->%list_elem_of_singleton. rewrite Hpaths in Hin.
      by apply header_not_region_out_path in Hin.
    - apply NoDup_singleton. }
  apply NoDup_app in Hall as (Hnd1 & Hdisj & Hnd2).
  apply NoDup_cons in Hnd2 as [Hprest _].
  eexists. split; [| split; [| split]].
  - unfold start_threads, start_threads_with.
    rewrite (bind_ok _ _ _ _ _ Hres). simpl.
    rewrite merge_and_cleanup_run by done. unfold remove_small_files.
    fold header_path. rewrite Hsplit.
    apply for_each_os_remove_missing; [done | done | | done].
    intros Hin. apply (Hdisj p Hin). apply list_elem_of_here.
  - reflexivity.
  - simpl. intros q Hq Hq2. apply elem_of_difference. split; [done |].
    intros Hin%elem_of_list_to_set. apply (Hdisj q Hin). by apply list_elem_of_further.
  - simpl. by rewrite <- !app_assoc.
Qed.

Lemma cleanup_stops_at_missing_file_witness :
  let E := Cases.env_lazy_sort in
  let res := [Some "/out/s1_chr1.output.bam"; Some "/out/s1_chr2.output.bam";
              Some "/out/s1_chr10.output.bam"] in
  let w1 := snd (gather_results E (proc_chr_job E) Sample.self Sample.w0) in
  let header_path := header_path_of Sample.self in
  let fs2 := files_after_merge_index E header_path "/out/s1.counts.bam"
               (paths_of res) (files w1) in
  ∃ w3,
    start_threads E Sample.self Sample.w0
    = (Raise (FileNotFoundError "/out/s1_chr2.output.bam"), w3)
    ∧ files w3 = fs2 ∖ list_to_set ["/out/s1_chr1.output.bam"]
    ∧ (∀ q, q ∈ ["/out/s1_chr10.output.bam"; "/out/s1.header"] → q ∈ fs2 → q ∈ files w3)
    ∧ trace w3
      = trace w1
        ++ (Print "finished adding CpG counts"
            :: merge_index_events header_path "/out/s1.counts.bam" (paths_of res))
        ++ map OsRemove (["/out/s1_chr1.output.bam"] ++ ["/out/s1_chr2.output.bam"]).
Proof.
  cbv zeta.
  apply (cleanup_stops_at_missing_file Cases.env_lazy_sort Sample.self Sample.w0
           "/out/s1.counts.bam"
           [Some "/out/s1_chr1.output.bam"; Some "/out/s1_chr2.output.bam";
            Some "/out/s1_chr10.output.bam"]).
  - vm_compute. reflexivity.
  - right. eexists. vm_compute. reflexivity.
  - right. eexists. vm_compute. reflexivity.
  - reflexivity.
  - intros q Hq. apply list_elem_of_singleton in Hq as ->. vm_compute. reflexivity.
  - vm_compute. discriminate.
Defined.

(** ** The return codes of the merge and of the index are not read *)

(** X7.  Two environments whose spawned processes leave the same files, with
    whatever return codes, outputs and error texts, give the same check
    of the results, merge, index and clean-up. *)
Theorem merge_and_cleanup_ignores_status (E E' : Env) (header_path final_path : string)
    (res : list (option string)) (w : World) :
  (∀ cmd fs, snd (run_popen E false cmd fs) = snd (run_popen E' false cmd fs)) →
  merge_and_cleanup E header_path final_path res w
  = merge_and_cleanup E' header_path final_path res w.
Proof.
  intros Hsame.
  assert (Hpopen : ∀ cmd (k k' : M unit) w',
            (∀ w2, k w2 = k' w2) →
            (popen_communicate E false cmd ;;; k) w'
            = (popen_communicate E' false cmd ;;; k') w').
  { intros cmd k k' w' Hk. unfold popen_communicate, bind, emit, ret, raise.
    destruct (Shlex.split cmd) as [argv | e]; simpl; [| done].
    pose proof (Hsame cmd (files w')) as Hs.
    destruct (run_popen E false cmd (files w')) as [r fs].
    destruct (run_popen E' false cmd (files w')) as [r' fs'].
    simpl in Hs. subst. apply Hk. }
  assert (Hmi : ∀ w', merge_and_index E header_path final_path res w'
                      = merge_and_index E' header_path final_path res w').
  { intros w'. unfold merge_and_index.
    rewrite !(bind_ok _ _ _ _ _ (emit_run _ _)).
    apply Hpopen. intros w2.
    rewrite !(bind_ok _ _ _ _ _ (emit_run _ _)).
    by apply Hpopen. }
  unfold merge_and_cleanup.
  rewrite !(bind_ok _ _ _ _ _ (emit_run _ _)).
  destruct (bool_decide (None ∈ res)); [done |].
  unfold bind at 1. rewrite Hmi. reflexivity.
Qed.

Lemma merge_and_cleanup_ignores_status_witness :
  merge_and_cleanup Sample.env "/out/s1.header" "/out/s1.counts.bam"
    [Some "/out/s1_chr1.output.bam"] Sample.w0
  = merge_and_cleanup Cases.env_status_1 "/out/s1.header" "/out/s1.counts.bam"
      [Some "/out/s1_chr1.output.bam"] Sample.w0.
Proof.
  apply (merge_and_cleanup_ignores_status Sample.env Cases.env_status_1).
  intros cmd fs. reflexivity.
Defined.

(** ** The driver *)

(** X3.  An input file that fails [validate_bam] is reported as skipped and
    the loop goes on: the invocation continues with the files after it,
    from the same file system. *)
Theorem main_skips_invalid_bam (E : Env) (args : Args) (w : World)
    (pre : list string) (b : string) (rest : list string) (w1 : World) :
  bam args = pre ++ b :: rest →
  validate_local_exe E (add_cpg_count_tool E) = Ok () →
  for_each (main_body E args) pre w = (Ok (), w1) →
  validate_bam E b (files w1) = false →
  main E args w
  = for_each (main_body E args) rest
      (mkWorld (files w1) (trace w1 ++ [Eprint ("[wt add_cpg_counts] Skipping " +:+ b)])).
Proof.
  intros Hbam Hexe Hpre Hb. unfold main. rewrite Hexe, Hbam.
  unfold bind at 1. unfold lift.
  rewrite (for_each_app _ _ _ _ _ Hpre). simpl.
  assert (Hbody : main_body E args b w1
    = (Ok (), mkWorld (files w1)
                (trace w1 ++ [Eprint ("[wt add_cpg_counts] Skipping " +:+ b)]))).
  { unfold main_body, bind. by rewrite Hb. }
  by rewrite (bind_ok _ _ _ _ _ Hbody).
Qed.

Lemma main_skips_invalid_bam_witness :
  main Cases.env_checks_bam Cases.args3 Sample.w0
  = for_each (main_body Cases.env_checks_bam Cases.args3) ["/data/s1.bam"]
      (mkWorld (files Sample.w0)
               (trace Sample.w0
                  ++ [Eprint ("[wt add_cpg_counts] Skipping " +:+ "/data/notes.txt")])).
Proof.
  apply (main_skips_invalid_bam Cases.env_checks_bam Cases.args3 Sample.w0
           [] "/data/notes.txt" ["/data/s1.bam"] Sample.w0); reflexivity.
Defined.

Lemma main_body_no_outdir (E : Env) (args : Args) (b : string) :
  isdir E (out_dir args) = false →
  emits_only is_eprint (main_body E args b).
Proof.
  intros Hdir. unfold main_body.
  apply emits_bind.
  { intros w. exists []. by rewrite app_nil_r. }
  intros [|]; simpl; [| by apply emits_emit].
  intros w. exists []. rewrite app_nil_r. split; [| constructor].
  unfold BamMethylData_init, bind, lift.
  destruct (make_GenomicRegion E args) as [gr | e]; [| done].
  unfold validate_input, bind. simpl. by rewrite Hdir.
Qed.

(** X4.  When the output directory is not a directory, [main] runs nothing:
    whatever the input files, no command is started, no pool is opened
    and no file is removed; the only events are the messages for the
    files that are skipped. *)
Theorem main_without_outdir_runs_nothing (E : Env) (args : Args) :
  isdir E (out_dir args) = false →
  emits_only is_eprint (main E args)
  ∧ ∀ w, files (snd (main E args w)) = files w.
Proof.
  intros Hdir. split.
  - unfold main. apply emits_bind; [apply emits_lift | intros _].
    apply emits_for_each. intros b. by apply main_body_no_outdir.
  - intros w. unfold main, bind, lift.
    destruct (validate_local_exe E (add_cpg_count_tool E)); [| done].
    generalize (bam args). intros l. revert w.
    induction l as [|b l IH]; intros w; simpl; [done |].
    unfold bind at 1.
    assert (Hb : files (snd (main_body E args b w)) = files w).
    { unfold main_body, bind. destruct (validate_bam E b (files w)); simpl; [| done].
      unfold BamMethylData_init, bind, lift.
      destruct (make_GenomicRegion E args) as [gr | e]; [| done].
      unfold validate_input, bind. simpl. by rewrite Hdir. }
    destruct (main_body E args b w) as [[[] | e] wb]; simpl in *; [| done].
    by rewrite IH.
Qed.

Lemma main_without_outdir_runs_nothing_witness :
  emits_only is_eprint (main Cases.env_no_outdir Sample.args2)
  ∧ ∀ w, files (snd (main Cases.env_no_outdir Sample.args2 w)) = files w.
Proof.
  apply (main_without_outdir_runs_nothing Cases.env_no_outdir Sample.args2).
  reflexivity.
Defined.

(** ** The jobs of the pool *)

(** Every pending job runs, whatever the other jobs do and whatever the
    order of completion: the event [mark] that a job always adds is in
    the trace for each of them. *)
Lemma pool_join_runs_all (E : Env) (worker : JobParams → M (option string))
    (mark : JobParams → event) :
  (∀ prm w, ∃ evs, trace (snd (worker prm w)) = trace w ++ mark prm :: evs) →
  ∀ fuel step pending done w,
    length pending = fuel →
    ∃ evs, trace (snd (pool_join E worker fuel step pending done w)) = trace w ++ evs
           ∧ ∀ h prm, (h, prm) ∈ pending → mark prm ∈ evs.
Proof.
  intros Hmark. induction fuel as [|fuel IH]; intros step pending done w Hlen; simpl.
  - exists []. split; [by rewrite app_nil_r |].
    destruct pending; [| done]. intros h prm H. by apply elem_of_nil in H.
  - destruct pending as [|j0 pending0]; [done |].
    set (pending := j0 :: pending0) in *.
    set (i := completes_next E step `mod` length pending).
    assert (Hi : i < length pending).
    { apply Nat.mod_upper_bound. unfold pending. simpl. lia. }
    destruct (lookup_lt_is_Some_2 pending i Hi) as [[h prm] Hlk].
    rewrite Hlk. destruct (Hmark prm w) as (evs1 & Ht1).
    destruct (worker prm w) as [o w']. simpl in Ht1.
    assert (Hlen' : length (delete i pending) = fuel).
    { rewrite length_delete by eauto. rewrite Hlen. simpl. lia. }
    destruct (IH (S step) (delete i pending) (<[h:=o]> done) w' Hlen')
      as (evs2 & Ht2 & Hin2).
    exists ((mark prm :: evs1) ++ evs2). split.
    + by rewrite Ht2, Ht1, <- app_assoc.
    + intros h' prm' Hin.
      rewrite <- (take_drop_middle pending i (h, prm) Hlk) in Hin.
      apply elem_of_app in Hin as [Hin | Hin];
        [| apply elem_of_cons in Hin as [Hin | Hin]].
      * apply elem_of_app. right. apply (Hin2 h').
        rewrite delete_take_drop. apply elem_of_app. by left.
      * simplify_eq. apply elem_of_app. left. apply list_elem_of_here.
      * apply elem_of_app. right. apply (Hin2 h').
        rewrite delete_take_drop. apply elem_of_app. by right.
Qed.

(** A job begins with its pipeline command. *)
Lemma proc_chr_job_begins (E : Env) (prm : JobParams) w :
  ∃ evs, trace (snd (proc_chr_job E prm w))
         = trace w ++ SubprocessWrap (pipeline_cmd E prm) (job_debug prm) :: evs.
Proof.
  unfold proc_chr_job, bind. rewrite proc_chr_outcome. cbv zeta.
  destruct (fst (run_subprocess_wrap E (pipeline_cmd E prm) (job_debug prm) (files w)));
    [| by eexists].
  destruct (fst (run_subprocess_wrap E (sort_cmd prm) (job_debug prm) _)); [| by eexists].
  destruct (decide _); by eexists.
Qed.

Lemma get_all_world (done : Handles) (hs : list nat) w : snd (get_all done hs w) = w.
Proof.
  induction hs as [|h hs IH]; simpl; [done |].
  unfold bind, get, lift, raise, ret.
  destruct (done !! h) as [[v | e] |]; simpl; [| done | done].
  specialize IH. destruct (get_all done hs w) as [[rs | e] w']; simpl in *; by subst.
Qed.

Lemma jobs_of_elem (E : Env) (self : BamMethylData) (name header_path : string)
    (h0 : nat) (regions : list string) (c : string) :
  c ∈ regions →
  ∃ h, (h, job_params E self (region_out_path_name name c) c header_path)
       ∈ jobs_of E self name header_path h0 regions.
Proof.
  revert h0. induction regions as [|c' cs IH]; intros h0 Hc; simpl.
  - by apply elem_of_nil in Hc.
  - apply elem_of_cons in Hc as [-> | Hc].
    + exists h0. apply list_elem_of_here.
    + destruct (IH (S h0) Hc) as [h Hh]. exists h. by apply list_elem_of_further.
Qed.

(** The merge, index and clean-up only add to the trace. *)
Lemma merge_and_cleanup_extends (E : Env) (header_path final_path : string)
    (res : list (option string)) w :
  ∃ evs, trace (snd (merge_and_cleanup E header_path final_path res w)) = trace w ++ evs.
Proof.
  destruct (merge_and_cleanup_emits (λ _, true) E header_path final_path res
              (λ _, eq_refl) (λ _, eq_refl) (λ _, eq_refl) w) as (evs & Ht & _).
  by exists evs.
Qed.

(** X12.  In a run over the resolved regions with a pool of at least one
    process, the pipeline of every resolved region is started, also when
    the job of another region raises: the pool runs all submitted jobs
    before the results are read. *)
Theorem every_job_is_started (E : Env) (self : BamMethylData) (w : World)
    (hp : string) (wh : World) (regions : list string) (wr : World) (c : string) :
  region_str (self_gr self) = None →
  (1 ≤ threads (self_args self))%Z →
  extract_header E self w = (Ok hp, wh) →
  set_regions E self (at_resolver self wh) = (Ok regions, wr) →
  c ∈ regions →
  SubprocessWrap (pipeline_cmd E (region_job E self c)) (self_debug self)
  ∈ trace (snd (start_threads E self w)).
Proof.
  intros Hnone Hthreads Hh Hr Hc.
  unfold start_threads, start_threads_with, gather_results.
  unfold bind at 1. unfold bind at 1. rewrite Hh.
  unfold collect_results. rewrite Hnone.
  unfold bind at 1. rewrite (pool_open_ok _ _ Hthreads). fold (at_resolver self wh).
  unfold bind at 1. rewrite Hr.
  unfold bind at 1. rewrite submit_all_run.
  destruct (jobs_of_elem E self (run_name self) (header_path_of self) 0 regions c Hc)
    as [h Hjob].
  destruct (jobs_of E self (run_name self) (header_path_of self) 0 regions)
    as [|j jobs] eqn:Hjobs; [by apply elem_of_nil in Hjob |].
  unfold pool_close_join. unfold bind at 1. unfold bind at 1. rewrite emit_run.
  match goal with |- context [pool_join E ?wk ?f ?s ?p ?d ?w0] =>
    destruct (pool_join_runs_all E wk
                (λ prm, SubprocessWrap (pipeline_cmd E prm) (job_debug prm))
                (proc_chr_job_begins E) f s p d w0 eq_refl) as (evs & Ht & Hin);
    destruct (pool_join E wk f s p d w0) as [done wj] eqn:Hpj end.
  simpl in Ht. specialize (Hin h _ Hjob).
  assert (Hmark : SubprocessWrap (pipeline_cmd E (region_job E self c)) (self_debug self)
                  ∈ trace wj).
  { rewrite Ht. apply elem_of_app. by right. }
  unfold bind at 1.
  pose proof (get_all_world done (map fst (j :: jobs)) wj) as Hg.
  destruct (get_all done (map fst (j :: jobs)) wj) as [[rs | e] wg]; simpl in Hg; subst wg.
  - simpl. destruct (merge_and_cleanup_extends E (header_path_of self)
                       (run_name self +:+ "." +:+ suffix (self_args self) +:+ BAM_SUFF)
                       rs wj) as [evs' Ht'].
    rewrite Ht'. apply elem_of_app. by left.
  - done.
Qed.

Lemma every_job_is_started_witness :
  SubprocessWrap (pipeline_cmd Cases.env_chr2_fails
                    (region_job Cases.env_chr2_fails Sample.self "chr10"))
                 (self_debug Sample.self)
  ∈ trace (snd (start_threads Cases.env_chr2_fails Sample.self Sample.w0)).
Proof.
  apply (every_job_is_started Cases.env_chr2_fails Sample.self Sample.w0
           "/out/s1.header"
           (snd (extract_header Cases.env_chr2_fails Sample.self Sample.w0))
           ["chr1"; "chr2"; "chr10"]
           (snd (set_regions Cases.env_chr2_fails Sample.self
                   (at_resolver Sample.self
                      (snd (extract_header Cases.env_chr2_fails Sample.self Sample.w0)))))).
  - reflexivity.
  - vm_compute. discriminate.
  - vm_compute. reflexivity.
  - vm_compute. reflexivity.
  - set_solver.
Defined.

(** ** A job that fails *)

Lemma proc_chr_job_raises (E : Env) (prm : JobParams) w :
  raises_if_pipeline_fails E prm (fst (proc_chr_job E prm w)).
Proof.
  intros Hfail. destruct (Hfail (files w)) as [e He].
  unfold proc_chr_job, bind. rewrite proc_chr_outcome. cbv zeta. rewrite He. by exists e.
Qed.

Lemma get_all_raises (done : Handles) (hs : list nat) (h : nat) (e : exn) w :
  h ∈ hs → done !! h = Some (Raise e) → ∃ e', fst (get_all done hs w) = Raise e'.
Proof.
  intros Hin Hh. destruct (get_all done hs w) as [[rs | e'] w'] eqn:Hg; [| by exists e'].
  apply get_all_ok in Hg as [_ HF]. exfalso.
  apply list_elem_of_lookup in Hin as [i Hi].
  destruct (Forall2_lookup_l _ _ _ _ _ HF Hi) as (r & _ & Hr). congruence.
Qed.

(** The events of a run up to the collection of the results satisfy any
    predicate that the events of the coordinator and of the jobs do. *)
Lemma gather_results_emits (P : event → bool) (E : Env)
    (worker : JobParams → M (option string)) (self : BamMethylData) :
  P (Print ": *** starting processing of each chromosome") = true →
  (∀ cmd dbg, P (SubprocessWrap cmd dbg) = true) →
  (∀ n, P (PoolOpen n) = true) →
  (∀ cmd, P (Popen true cmd) = true) →
  (∀ msg, P (Eprint msg) = true) →
  (∀ h c, P (ApplyAsync h c) = true) →
  P PoolJoin = true →
  (∀ p, emits_only P (worker p)) →
  emits_only P (gather_results E worker self).
Proof.
  intros HP1 HP2 HP3 HP4 HP5 HP6 HP7 Hworker. unfold gather_results.
  apply emits_bind.
  { unfold extract_header, proc_header.
    apply emits_bind; [by apply emits_emit | intros _].
    apply emits_bind; [by apply emits_subprocess_wrap | intros _; apply emits_ret]. }
  intros _. unfold collect_results. destruct (region_str (self_gr self)) as [r |].
  - apply emits_bind; [apply Hworker | intros r1; apply emits_ret].
  - apply emits_bind; [by apply emits_pool_open | intros _].
    apply emits_bind; [by apply set_regions_emits | intros regions].
    apply emits_bind.
    { intros w. rewrite submit_all_run. simpl. eexists. split; [reflexivity |].
      generalize 0. induction regions as [|c cs IH]; intros h; simpl; by constructor. }
    intros [|j jobs]; [apply emits_raise |].
    apply emits_bind; [by apply pool_close_join_emits | intros done].
    apply emits_bind; [apply get_all_emits | intros rs; apply emits_ret].
Qed.

(** X13.  In a run over the resolved regions, when the pipeline of one resolved
    region fails whatever the files, the run raises where the collection
    of the results ends: it goes on to no merge, index or clean-up, and
    no merge or index was started before. *)
Theorem failing_job_fails_run (E : Env) (self : BamMethylData) (w : World)
    (hp : string) (wh : World) (regions : list string) (wr : World) (c : string) :
  region_str (self_gr self) = None →
  extract_header E self w = (Ok hp, wh) →
  set_regions E self (at_resolver self wh) = (Ok regions, wr) →
  c ∈ regions →
  always_raises E (pipeline_cmd E (region_job E self c)) (self_debug self) →
  ∃ e w',
    gather_results E (proc_chr_job E) self w = (Raise e, w')
    ∧ start_threads E self w = (Raise e, w')
    ∧ ∃ evs, trace w' = trace w ++ evs
             ∧ Forall (λ ev, direct_spawn ev = false) evs.
Proof.
  intros Hnone Hh Hr Hc Hfail.
  assert (Hgather : ∃ e w', gather_results E (proc_chr_job E) self w = (Raise e, w')).
  { unfold gather_results. rewrite (bind_ok _ _ _ _ _ Hh).
    unfold collect_results. rewrite Hnone.
    destruct (Z.lt_ge_cases (threads (self_args self)) 1) as [Hlt | Hge].
    { rewrite (bind_raise _ _ _ _ _ (pool_open_refused _ _ Hlt)). by eexists _, _. }
    rewrite (bind_ok _ _ _ _ _ (pool_open_ok _ _ Hge)). fold (at_resolver self wh).
    rewrite (bind_ok _ _ _ _ _ Hr).
    rewrite (bind_ok _ _ _ _ _ (submit_all_run _ _ _ _ _ _ _)).
    destruct (jobs_of_elem E self (run_name self) (header_path_of self) 0 regions c Hc)
      as [h Hjob].
    pose proof (jobs_of_handles E self (run_name self) (header_path_of self) 0 regions)
      as Hhandles.
    destruct (jobs_of E self (run_name self) (header_path_of self) 0 regions)
      as [|j jobs] eqn:Hjobs; [by apply elem_of_nil in Hjob |].
    unfold pool_close_join. unfold bind at 1. unfold bind at 1. rewrite emit_run.
    match goal with |- context [pool_join E ?wk ?f ?s ?p ?d ?w0] =>
      pose proof (pool_join_spec E wk (raises_if_pipeline_fails E)
                    (proc_chr_job_raises E) f s p d w0 eq_refl) as Hspec;
      destruct (pool_join E wk f s p d w0) as [done wj] eqn:Hpj end.
    destruct Hspec as [Hspec _].
    { rewrite Hhandles. apply NoDup_seq. }
    destruct (Hspec h _ Hjob) as (o & Ho & Hgood).
    destruct (Hgood Hfail) as [e ->].
    assert (Hin : h ∈ map fst (j :: jobs)).
    { apply list_elem_of_fmap. eexists. split; [| exact Hjob]. done. }
    destruct (get_all_raises done (map fst (j :: jobs)) h e wj Hin Ho) as [e' He'].
    unfold bind at 1.
    destruct (get_all done (map fst (j :: jobs)) wj) as [[rs | e''] wg]; simpl in He';
      [discriminate | by eexists _, _]. }
  destruct Hgather as (e & w' & Hgather).
  exists e, w'. split; [done |]. split.
  - unfold start_threads, start_threads_with. by apply bind_raise.
  - destruct (gather_results_no_direct_spawn E (proc_chr_job E) self) with (w := w)
      as (evs & Ht & HF).
    + intros p. unfold proc_chr_job.
      apply emits_bind; [by apply proc_chr_emits | intros r; apply emits_ret].
    + rewrite Hgather in Ht. exists evs. split; [done |].
      eapply Forall_impl; [exact HF |]. intros ev Hev. by apply negb_true_iff in Hev.
Qed.

Lemma chr2_pipeline_always_raises :
  always_raises Cases.env_chr2_fails
    (pipeline_cmd Cases.env_chr2_fails (region_job Cases.env_chr2_fails Sample.self "chr2"))
    (self_debug Sample.self).
Proof. intros fs. by exists (IllegalArgumentError "Failed"). Qed.

Lemma failing_job_fails_run_witness :
  ∃ e w',
    gather_results Cases.env_chr2_fails (proc_chr_job Cases.env_chr2_fails)
      Sample.self Sample.w0 = (Raise e, w')
    ∧ start_threads Cases.env_chr2_fails Sample.self Sample.w0 = (Raise e, w')
    ∧ ∃ evs, trace w' = trace Sample.w0 ++ evs
             ∧ Forall (λ ev, direct_spawn ev = false) evs.
Proof.
  apply (failing_job_fails_run Cases.env_chr2_fails Sample.self Sample.w0
           "/out/s1.header"
           (snd (extract_header Cases.env_chr2_fails Sample.self Sample.w0))
           ["chr1"; "chr2"; "chr10"]
           (snd (set_regions Cases.env_chr2_fails Sample.self
                   (at_resolver Sample.self
                      (snd (extract_header Cases.env_chr2_fails Sample.self Sample.w0)))))
           "chr2").
  - reflexivity.
  - vm_compute. reflexivity.
  - vm_compute. reflexivity.
  - set_solver.
  - apply chr2_pipeline_always_raises.
Defined.

(** ** The failure sentinel *)

(** X14.  A run whose jobs are [proc_chr] never reports [threads failed]: a
    job returns its path or raises, so the result list holds no [None]
    and the check of line 190 never fires. *)
Theorem threads_failed_is_never_printed (E : Env) (self : BamMethylData) :
  emits_only not_threads_failed (start_threads E self).
Proof.
  intros w.
  destruct (gather_results_emits not_threads_failed E (proc_chr_job E) self) with (w := w)
    as (evs1 & Ht1 & HF1); try done.
  { intros p. unfold proc_chr_job.
    apply emits_bind; [by apply proc_chr_emits | intros r; apply emits_ret]. }
  unfold start_threads, start_threads_with, bind.
  destruct (gather_results E (proc_chr_job E) self w) as [[[final_path res] | e] w1] eqn:Hres;
    simpl in Ht1; [| by exists evs1].
  pose proof (gather_results_no_None _ _ _ _ _ _ Hres) as Hnn. simpl.
  assert (Hrest : emits_only not_threads_failed
            (merge_and_cleanup E (header_path_of self) final_path res)).
  { unfold merge_and_cleanup, merge_and_index, remove_small_files.
    apply emits_bind; [by apply emits_emit | intros _].
    rewrite bool_decide_false by done.
    apply emits_bind; [| intros _; apply emits_for_each; intros f; by apply emits_os_remove].
    apply emits_bind; [by apply emits_emit | intros _].
    apply emits_bind; [by apply emits_emit | intros _].
    apply emits_bind; [by apply emits_popen_communicate | intros _].
    apply emits_bind; [by apply emits_emit | intros _].
    apply emits_bind; [by apply emits_emit | intros _].
    apply emits_bind; [by apply emits_popen_communicate | intros _].
    by apply emits_emit. }
  destruct (Hrest w1) as (evs2 & Ht2 & HF2).
  exists (evs1 ++ evs2). split.
  - by rewrite Ht2, Ht1, <- app_assoc.
  - by apply Forall_app.
Qed.

(** ** The temporary prefix of the sort *)

Lemma rev_app_app (a b : string) : String.rev_app a b = String.rev a +:+ b.
Proof.
  revert b. induction a as [|x a IH]; intros b; [done |].
  unfold String.rev. simpl. rewrite (IH (String x b)), (IH (String x "")).
  by rewrite str_app_assoc.
Qed.

Lemma rev_cons (x : ascii) (a : string) :
  String.rev (String x a) = String.rev a +:+ String x "".
Proof. unfold String.rev at 1. simpl. apply rev_app_app. Qed.

Lemma rev_str_app (a b : string) : String.rev (a +:+ b) = String.rev b +:+ String.rev a.
Proof.
  induction a as [|x a IH].
  - rewrite str_app_nil_l. change (String.rev "") with "".
    induction (String.rev b) as [|y s IHs]; [done |]. by rewrite str_app_cons, <- IHs.
  - rewrite str_app_cons, !rev_cons, IH. by rewrite str_app_assoc.
Qed.

Lemma mem_rev (c : ascii) (s : string) : Str.mem c (String.rev s) = Str.mem c s.
Proof.
  induction s as [|x s IH]; [done |].
  rewrite rev_cons, mem_app, IH. simpl. rewrite orb_false_r. apply orb_comm.
Qed.

Lemma from_slash_app (x y : string) :
  Str.mem "/" x = false → Str.from_slash (x +:+ y) = Str.from_slash y.
Proof.
  induction x as [|a x IH]; intros Hx; [done |].
  simpl in Hx. apply orb_false_iff in Hx as [Ha Hx].
  rewrite str_app_cons. simpl. rewrite Ha. by apply IH.
Qed.

(** Text without a slash after a path does not change its directory. *)
Lemma dirname_app (p s : string) :
  Str.mem "/" s = false → Str.dirname (p +:+ s) = Str.dirname p.
Proof.
  intros Hs. unfold Str.dirname. rewrite rev_str_app.
  rewrite from_slash_app; [done |]. by rewrite mem_rev.
Qed.

(** X15.  Every job of a run whose region holds no slash gives [samtools sort]
    the same prefix for its temporary files, the directory of the run
    name: jobs that run at the same time share it. *)
Theorem sort_prefix_is_shared (E : Env) (self : BamMethylData) (c : string) :
  Str.mem "/" c = false →
  sort_cmd (region_job E self c)
  = "samtools sort -o " +:+ region_out_path (run_name self) c
    +:+ " -T " +:+ Str.dirname (run_name self)
    +:+ " " +:+ unsorted_bam (region_out_path_name (run_name self) c).
Proof.
  intros Hc.
  assert (Hd : Str.dirname (out_path (region_out_path_name (run_name self) c))
               = Str.dirname (run_name self)).
  { unfold out_path, region_out_path_name. rewrite !str_app_assoc.
    apply dirname_app. rewrite !mem_app, Hc. reflexivity. }
  unfold sort_cmd, region_job. simpl. by rewrite Hd.
Qed.

Lemma sort_prefix_is_shared_witness :
  sort_cmd (region_job Sample.env Sample.self "chr10")
  = "samtools sort -o " +:+ region_out_path (run_name Sample.self) "chr10"
    +:+ " -T " +:+ Str.dirname (run_name Sample.self)
    +:+ " " +:+ unsorted_bam (region_out_path_name (run_name Sample.self) "chr10").
Proof.
  apply (sort_prefix_is_shared Sample.env Sample.self "chr10"). reflexivity.
Defined.

(** ** A pool of no process, and a command that does not split *)

(** X16.  In a run without an explicit region and with a pool size below
    one, [Pool] raises [ValueError] right after the header extraction:
    the contigs are not listed, no job is submitted, nothing is merged or
    removed, and the file system is the one the header extraction left. *)
Theorem pool_size_below_one_fails_run (E : Env) (self : BamMethylData) (w : World)
    (fs1 : gset string) :
  region_str (self_gr self) = None →
  (threads (self_args self) < 1)%Z →
  run_subprocess_wrap E (header_cmd self) (self_debug self) (files w) = (Ok (), fs1) →
  start_threads E self w
  = (Raise (ValueError "Number of processes must be at least 1"),
     mkWorld fs1 (trace w ++ [Print ": *** starting processing of each chromosome";
                              SubprocessWrap (header_cmd self) (self_debug self)])).
Proof.
  intros Hnone Hthreads Hh.
  unfold start_threads, start_threads_with, gather_results.
  apply bind_raise.
  rewrite (bind_ok _ _ _ _ _ (extract_header_ok E self w fs1 Hh)).
  unfold collect_results. rewrite Hnone.
  by rewrite (bind_raise _ _ _ _ _ (pool_open_refused _ _ Hthreads)).
Qed.

Lemma pool_size_below_one_fails_run_witness :
  start_threads Sample.env (Cases.self_over Sample.hg Cases.args_no_threads) Sample.w0
  = (Raise (ValueError "Number of processes must be at least 1"),
     mkWorld {["/data/s1.bam"; "/out/s1.header"]}
       (trace Sample.w0
          ++ [Print ": *** starting processing of each chromosome";
              SubprocessWrap "samtools view -H /data/s1.bam > /out/s1.header " false])).
Proof.
  apply (pool_size_below_one_fails_run Sample.env
           (Cases.self_over Sample.hg Cases.args_no_threads) Sample.w0
           {["/data/s1.bam"; "/out/s1.header"]}).
  - reflexivity.
  - vm_compute. reflexivity.
  - vm_compute. reflexivity.
Defined.

(** X17.  When the merge command does not split into arguments (a
    quotation that is not closed, a backslash at the end), the run ends
    with the [ValueError] of [shlex.split] where the merge would start: no
    process is spawned, no index is built, and no per-region file and no
    header is removed. *)
Theorem unsplit_merge_command_fails_run (E : Env) (self : BamMethylData) (w : World)
    (final_path : string) (res : list (option string)) (w1 : World) (e : exn) :
  gather_results E (proc_chr_job E) self w = (Ok (final_path, res), w1) →
  Shlex.split (merge_cmd (header_path_of self) final_path (paths_of res)) = Raise e →
  start_threads E self w
  = (Raise e,
     mkWorld (files w1)
             (trace w1 ++ [Print "finished adding CpG counts";
                           Print ": finished processing each chromosome";
                           Print ": starting cat of files"])).
Proof.
  intros Hres Hsplit.
  pose proof (gather_results_no_None _ _ _ _ _ _ Hres) as Hnn.
  unfold start_threads, start_threads_with.
  rewrite (bind_ok _ _ _ _ _ Hres). simpl.
  unfold merge_and_cleanup. rewrite (bind_ok _ _ _ _ _ (emit_run _ _)).
  rewrite bool_decide_false by done.
  rewrite (bind_raise _ _ _ _ _ (merge_and_index_unsplit _ _ _ _ _ _ Hsplit)).
  simpl. by rewrite <- !app_assoc.
Qed.

Lemma unsplit_merge_command_fails_run_witness :
  let self := Cases.self_over Sample.hg Cases.args_quote in
  let w1 := snd (gather_results Sample.env (proc_chr_job Sample.env) self Sample.w0) in
  start_threads Sample.env self Sample.w0
  = (Raise (ValueError "No closing quotation"),
     mkWorld (files w1)
             (trace w1 ++ [Print "finished adding CpG counts";
                           Print ": finished processing each chromosome";
                           Print ": starting cat of files"])).
Proof.
  cbv zeta.
  apply (unsplit_merge_command_fails_run Sample.env
           (Cases.self_over Sample.hg Cases.args_quote) Sample.w0
           "/out/s1.it's.bam"
           [Some "/out/s1_chr1.output.bam"; Some "/out/s1_chr2.output.bam";
            Some "/out/s1_chr10.output.bam"]).
  - vm_compute. reflexivity.
  - vm_compute. reflexivity.
Defined.
